(** * China map dashboard: drill-down / cache state machine

    A shallow embedding of [src/components/ChinaMapDashboard.tsx] and
    [src/types.ts].  JavaScript numbers that hold integers are [Z]; the
    fractions produced by [Math.random] and computed from them are IEEE 754
    doubles, held as the rationals they denote and rounded to the nearest
    double after every operation; strings are UTF-8 byte strings, the [Map]
    used as boundary cache is a [gmap], and the asynchronous [loadMap] is a
    labelled transition system whose suspended invocations are kept in the
    world. *)

From Stdlib Require Import ZArith QArith Qround Qpower Lia Lqa Ascii String.
From Stdlib Require Import Floats.SpecFloat.
From stdpp Require Import base option list strings pretty gmap.

Local Open Scope Z_scope.

(** ** The ECMAScript date algorithms used by [getLast7Days]

    Time values are milliseconds since the epoch, in UTC.  The definitions
    follow the abstract operations of the language specification (Day,
    DayFromYear, YearFromTime, MonthFromTime, DateFromTime, MakeDay,
    MakeDate, LocalTime, UTC). *)
Module JsDate.

Definition msPerDay : Z := 86400000.
Definition msPerHour : Z := 3600000.
Definition msPerMinute : Z := 60000.
Definition msPerSecond : Z := 1000.

Definition Day (t : Z) : Z := t / msPerDay.
Definition TimeWithinDay (t : Z) : Z := t mod msPerDay.

Definition DayFromYear (y : Z) : Z :=
  365 * (y - 1970) + (y - 1969) / 4 - (y - 1901) / 100 + (y - 1601) / 400.

Definition DaysInYear (y : Z) : Z := DayFromYear (y + 1) - DayFromYear y.

(** The largest [y] with [DayFromYear y <= d]: a mean-year estimate,
    corrected by at most one year. *)
Definition YearFromDay (d : Z) : Z :=
  let y := 1970 + (400 * d) / 146097 in
  if DayFromYear (y + 1) <=? d then y + 1
  else if d <? DayFromYear y then y - 1
  else y.

Definition YearFromTime (t : Z) : Z := YearFromDay (Day t).

Definition InLeapYear (t : Z) : Z :=
  if DaysInYear (YearFromTime t) =? 366 then 1 else 0.

Definition DayWithinYear (t : Z) : Z := Day t - DayFromYear (YearFromTime t).

(** Day number, within its year, of the first day of month [m] (0-based). *)
Definition monthStart (leap m : Z) : Z :=
  match m with
  | 0 => 0
  | 1 => 31
  | 2 => 59 + leap
  | 3 => 90 + leap
  | 4 => 120 + leap
  | 5 => 151 + leap
  | 6 => 181 + leap
  | 7 => 212 + leap
  | 8 => 243 + leap
  | 9 => 273 + leap
  | 10 => 304 + leap
  | _ => 334 + leap
  end.

Definition MonthFromTime (t : Z) : Z :=
  let d := DayWithinYear t in
  let leap := InLeapYear t in
  if d <? 31 then 0
  else if d <? 59 + leap then 1
  else if d <? 90 + leap then 2
  else if d <? 120 + leap then 3
  else if d <? 151 + leap then 4
  else if d <? 181 + leap then 5
  else if d <? 212 + leap then 6
  else if d <? 243 + leap then 7
  else if d <? 273 + leap then 8
  else if d <? 304 + leap then 9
  else if d <? 334 + leap then 10
  else 11.

Definition DateFromTime (t : Z) : Z :=
  DayWithinYear t - monthStart (InLeapYear t) (MonthFromTime t) + 1.

(** [MakeDay year month date]: the day number of the [date]-th day counted
    from the first of the given month; [date] may lie outside the month. *)
Definition MakeDay (year month date : Z) : Z :=
  let ym := year + month / 12 in
  let mn := month mod 12 in
  let leap := if DaysInYear ym =? 366 then 1 else 0 in
  DayFromYear ym + monthStart leap mn + date - 1.

Definition MakeDate (day time : Z) : Z := day * msPerDay + time.

(** The host time zone: the offset (in ms) in effect at a UTC instant, and
    the offset used to interpret a local time value. *)
Record TimeZone := {
  tzaOfUTC : Z -> Z;
  tzaOfLocal : Z -> Z
}.

Definition LocalTime (tz : TimeZone) (t : Z) : Z := t + tzaOfUTC tz t.
Definition UTC (tz : TimeZone) (t : Z) : Z := t - tzaOfLocal tz t.

(** A zone without daylight saving, [minutes] east of Greenwich. *)
Definition fixedZone (minutes : Z) : TimeZone :=
  {| tzaOfUTC := fun _ => minutes * msPerMinute;
     tzaOfLocal := fun _ => minutes * msPerMinute |}.

(** [Date.prototype.getDate]: day of the month in local time. *)
Definition getDate (tz : TimeZone) (t : Z) : Z := DateFromTime (LocalTime tz t).

(** [Date.prototype.setDate]: replace the day of the month in local time,
    keeping the local time of day; the result is the new time value. *)
Definition setDate (tz : TimeZone) (t dt : Z) : Z :=
  let tl := LocalTime tz t in
  let newDate :=
    MakeDate (MakeDay (YearFromTime tl) (MonthFromTime tl) dt) (TimeWithinDay tl) in
  UTC tz newDate.

(** Decimal digits of a non-negative number, padded with zeros on the left
    to [width] characters. *)
Fixpoint zeros (n : nat) : string :=
  match n with
  | O => ""
  | S n' => "0" +:+ zeros n'
  end.

Definition pad (width : nat) (n : Z) : string :=
  let s := pretty (Z.abs n) in
  zeros (width - String.length s) +:+ s.

Definition isoYear (y : Z) : string :=
  if (0 <=? y) && (y <=? 9999) then pad 4 y
  else (if y <? 0 then "-" else "+") +:+ pad 6 y.

(** [Date.prototype.toISOString]: always in UTC. *)
Definition toISOString (t : Z) : string :=
  let tod := TimeWithinDay t in
  isoYear (YearFromTime t) +:+ "-" +:+ pad 2 (MonthFromTime t + 1) +:+ "-"
    +:+ pad 2 (DateFromTime t)
    +:+ "T" +:+ pad 2 (tod / msPerHour) +:+ ":"
    +:+ pad 2 ((tod mod msPerHour) / msPerMinute) +:+ ":"
    +:+ pad 2 ((tod mod msPerMinute) / msPerSecond) +:+ "."
    +:+ pad 3 (tod mod msPerSecond) +:+ "Z".

(** [s.split('T')[0]]: the part of [s] before its first ['T']. *)
Fixpoint splitT0 (s : string) : string :=
  match s with
  | EmptyString => EmptyString
  | String c rest =>
      if Ascii.eqb c "T"%char then EmptyString else String c (splitT0 rest)
  end.

End JsDate.

(** ** Helper functions of the component *)

(** [getLast7Days].  Every iteration reads the system clock afresh
    ([new Date()]); [clock k] is the reading of the [k]-th iteration. *)
Section Dates.
Variable tz : JsDate.TimeZone.
Variable clock : nat -> Z.

Definition dayEntry (now : Z) (i : Z) : string :=
  let d := now in
  let d := JsDate.setDate tz d (JsDate.getDate tz d - i) in
  JsDate.splitT0 (JsDate.toISOString d).

(** [for (let i = 6; i >= 0; i--)], started at [i]. *)
Fixpoint getLast7Days_from (i : nat) (k : nat) (dates : list string) : list string :=
  let dates := dates ++ [dayEntry (clock k) (Z.of_nat i)] in
  match i with
  | O => dates
  | S i' => getLast7Days_from i' (S k) dates
  end.

Definition getLast7Days : list string := getLast7Days_from 6 0 [].
End Dates.


(** ** Data model ([src/types.ts]) *)

Record MapData := {
  name : string;
  value : Z;
  growth : Q
}.

(** The [properties] object of a feature; further keys are not read. *)
Record FeatureProperties := {
  props_name : string;
  props_cp : option (Q * Q);
  props_center : option (Q * Q);
  props_adcode : option Z
}.

(** [geometry: any] is never inspected by the component: it is carried as
    the opaque text of the shape. *)
Record GeoJSONFeature := {
  feature_type : string;
  properties : FeatureProperties;
  geometry : string
}.

Record GeoJSON := {
  geo_type : string;
  features : list GeoJSONFeature
}.

(** ** Values

    The values a property read on [PROVINCE_ADCODES] can give: a number, or
    what an object literal inherits from [Object.prototype], a built-in
    function or the prototype object. *)
Inductive JsValue :=
| JsNumber (n : Z)
| JsFunction (fname : string)
| JsObject.

Coercion JsNumber : Z >-> JsValue.

#[export] Instance JsValue_eq_dec : EqDecision JsValue.
Proof. solve_decision. Defined.

(** Truthiness, as tested by [if (adcode)]. *)
Definition ToBoolean (v : JsValue) : bool :=
  match v with
  | JsNumber n => negb (n =? 0)
  | JsFunction _ | JsObject => true
  end.

(** The text a value gives in a template literal: the decimal digits of an
    integer; for a built-in function the text of [Function.prototype.toString],
    whose form [function name() { [native code] }] the language fixes up to
    white space, written here as V8 and JavaScriptCore print it; for a plain
    object [[object Object]]. *)
Definition ToString (v : JsValue) : string :=
  match v with
  | JsNumber n => pretty n
  | JsFunction fname => "function " +:+ fname +:+ "() { [native code] }"
  | JsObject => "[object Object]"
  end.

(** ** Constants *)

Definition MAP_BASE_URL : string := "https://geo.datav.aliyun.com/areas_v3/bound".

(** The registry is an object literal: an ordered table of own properties. *)
Definition PROVINCE_ADCODES : list (string * Z) :=
  [ ("北京市", 110000); ("天津市", 120000); ("河北省", 130000); ("山西省", 140000);
    ("内蒙古自治区", 150000);
    ("辽宁省", 210000); ("吉林省", 220000); ("黑龙江省", 230000); ("上海市", 310000);
    ("江苏省", 320000);
    ("浙江省", 330000); ("安徽省", 340000); ("福建省", 350000); ("江西省", 360000);
    ("山东省", 370000);
    ("河南省", 410000); ("湖北省", 420000); ("湖南省", 430000); ("广东省", 440000);
    ("广西壮族自治区", 450000);
    ("海南省", 460000); ("重庆市", 500000); ("四川省", 510000); ("贵州省", 520000);
    ("云南省", 530000);
    ("西藏自治区", 540000); ("陕西省", 610000); ("甘肃省", 620000); ("青海省", 630000);
    ("宁夏回族自治区", 640000);
    ("新疆维吾尔自治区", 650000); ("台湾省", 710000); ("香港特别行政区", 810000);
    ("澳门特别行政区", 820000) ].

(** The own property [key] of an object given by the table of its own
    properties. *)
Fixpoint getOwnProperty {A : Type} (key : string) (record : list (string * A))
  : option A :=
  match record with
  | [] => None
  | (k, v) :: rest => if String.eqb k key then Some v else getOwnProperty key rest
  end.

(** The properties of [Object.prototype], the prototype of every object
    literal: the constructor, the built-in methods, and the accessor
    [__proto__], which on an object literal reads [Object.prototype]
    itself. *)
Definition Object_prototype : list (string * JsValue) :=
  [ ("constructor", JsFunction "Object");
    ("__defineGetter__", JsFunction "__defineGetter__");
    ("__defineSetter__", JsFunction "__defineSetter__");
    ("hasOwnProperty", JsFunction "hasOwnProperty");
    ("__lookupGetter__", JsFunction "__lookupGetter__");
    ("__lookupSetter__", JsFunction "__lookupSetter__");
    ("isPrototypeOf", JsFunction "isPrototypeOf");
    ("propertyIsEnumerable", JsFunction "propertyIsEnumerable");
    ("toString", JsFunction "toString");
    ("valueOf", JsFunction "valueOf");
    ("__proto__", JsObject);
    ("toLocaleString", JsFunction "toLocaleString") ].

(** [record[key]] on an object literal of numbers: the own property [key]
    if there is one, else the property inherited from [Object.prototype];
    [None] is [undefined]. *)
Definition record_get (key : string) (record : list (string * Z)) : option JsValue :=
  match getOwnProperty key record with
  | Some n => Some (JsNumber n)
  | None => getOwnProperty key Object_prototype
  end.

(** [Object.keys]: the property names in insertion order. *)
Definition Object_keys (record : list (string * Z)) : list string := map fst record.

Definition INITIAL_PROVINCES : list string := Object_keys PROVINCE_ADCODES.

(** Truthiness of a string, as tested by [params.name] and by
    [filter(Boolean)]. *)
Definition Boolean (s : string) : bool :=
  match s with
  | EmptyString => false
  | String _ _ => true
  end.


(** ** Double-precision arithmetic

    A finite double is held as the rational it denotes.  An operation gives
    the exact result rounded to the nearest double, ties to the even
    significand (IEEE 754 binary64: 53-bit significands, least exponent
    -1074).  The sign of zero is not kept and overflow is not modelled: the
    magnitudes computed by this program stay below 10^4. *)
Module Double.

Definition pow2 (e : Z) : Q := (2 ^ e)%Q.

(** Floor of the binary logarithm of a positive rational. *)
Definition ilog2 (x : Q) : Z :=
  let d := Z.log2 (Qnum x) - Z.log2 (Zpos (Qden x)) in
  if Qle_bool (pow2 d) x then d else d - 1.

Definition roundTiesToEven (x : Q) : Z :=
  let f := Qfloor x in
  match (x - inject_Z f ?= 1 # 2)%Q with
  | Lt => f
  | Gt => f + 1
  | Eq => if Z.even f then f else f + 1
  end.

(** The exponent of the unit in the last place of the doubles around [a]:
    52 below the exponent of [a], -1074 in the subnormal range. *)
Definition ulpExponent (a : Q) : Z := Z.max (ilog2 a - 52) (-1074).

Definition roundAbs (a : Q) : Q :=
  let e := ulpExponent a in
  (inject_Z (roundTiesToEven (a * pow2 (- e))) * pow2 e)%Q.

Definition round (x : Q) : Q :=
  if Qlt_le_dec x 0 then (- roundAbs (- x))%Q else roundAbs x.

(** The non-negative doubles: an integer below 2^53 times a power of two
    not below 2^-1074. *)
Definition representable (b : Q) : Prop :=
  exists m k : Z, 0 <= m < 2 ^ 53 /\ -1074 <= k /\ (b == inject_Z m * pow2 k)%Q.

Definition isDouble (x : Q) : Prop := (round x == x)%Q.

Definition mul (x y : Q) : Q := round (x * y).
Definition sub (x y : Q) : Q := round (x - y).

(** Reading a finite value of the standard library's binary64 format. *)
Definition ofSpecFloat (f : spec_float) : Q :=
  match f with
  | S754_finite s m e =>
      ((if s then - inject_Z (Zpos m) else inject_Z (Zpos m)) * pow2 e)%Q
  | _ => 0%Q
  end.

End Double.

(** A decimal literal of the source denotes the nearest double. *)
Definition literal (q : Q) : Q := Double.round q.

(** ** The metric generator

    [Math.random] draws from a source of doubles; [rand k] is the [k]-th
    draw and the state threaded through the generator is the number of draws
    made so far. *)
Definition Rand (A : Type) : Type := nat -> A * nat.

#[export] Instance rand_ret : MRet Rand := fun A a s => (a, s).

#[export] Instance rand_bind : MBind Rand :=
  fun A B f m s => let (a, s') := m s in f a s'.

Definition Math_floor (x : Q) : Z := Qfloor x.

(** [x.toFixed(2)]: the decimal with two fraction digits nearest to the
    exact value of the double [x], the larger one of two equally near, the
    sign treated apart.  The string is held as its number [n] of
    hundredths. *)
Definition toFixed2 (x : Q) : Z :=
  if Qlt_le_dec x 0
  then - Qfloor ((- x) * 100 + (1 # 2))
  else Qfloor (x * 100 + (1 # 2)).

(** [parseFloat] of such a string: the double nearest to [n / 100]. *)
Definition parseFloat_hundredths (n : Z) : Q := Double.round (n # 100).

Section Generator.
Variable rand : nat -> Q.

Definition Math_random : Rand Q := fun s => (rand s, S s).

Definition generateSample (name : string) : Rand MapData :=
  r1 ← Math_random;
  r2 ← Math_random;
  mret {| name := name;
              value := Math_floor (Double.mul r1 9000) + 1000;
              growth :=
                parseFloat_hundredths
                  (toFixed2 (Double.sub (Double.mul r2 (literal (4 # 10)))
                                        (literal (2 # 10)))) |}.

(** [regionNames.map(...)] *)
Fixpoint generateData (regionNames : list string) : Rand (list MapData) :=
  match regionNames with
  | [] => mret []
  | name :: rest =>
      d ← generateSample name;
      ds ← generateData rest;
      mret (d :: ds)
  end.
End Generator.

(** ** Component state *)

(** An array held in React state.  React compares state and effect
    dependencies with [Object.is], so an array is known by its identity as
    well as by its elements. *)
Record RegionArray := {
  array_id : nat;
  elements : list string
}.

(** The [useState] cells of the component. *)
Record ViewState := {
  isLoading : bool;
  error : option string;
  dates : list string;
  selectedDate : string;
  currentMapName : string;
  currentAdcode : JsValue;
  currentRegionNames : RegionArray
}.

Definition setIsLoading (b : bool) (v : ViewState) : ViewState :=
  {| isLoading := b; error := error v; dates := dates v;
     selectedDate := selectedDate v; currentMapName := currentMapName v;
     currentAdcode := currentAdcode v; currentRegionNames := currentRegionNames v |}.

Definition setError (e : option string) (v : ViewState) : ViewState :=
  {| isLoading := isLoading v; error := e; dates := dates v;
     selectedDate := selectedDate v; currentMapName := currentMapName v;
     currentAdcode := currentAdcode v; currentRegionNames := currentRegionNames v |}.

Definition setSelectedDate (d : string) (v : ViewState) : ViewState :=
  {| isLoading := isLoading v; error := error v; dates := dates v;
     selectedDate := d; currentMapName := currentMapName v;
     currentAdcode := currentAdcode v; currentRegionNames := currentRegionNames v |}.

Definition setCurrentMapName (m : string) (v : ViewState) : ViewState :=
  {| isLoading := isLoading v; error := error v; dates := dates v;
     selectedDate := selectedDate v; currentMapName := m;
     currentAdcode := currentAdcode v; currentRegionNames := currentRegionNames v |}.

Definition setCurrentAdcode (a : JsValue) (v : ViewState) : ViewState :=
  {| isLoading := isLoading v; error := error v; dates := dates v;
     selectedDate := selectedDate v; currentMapName := currentMapName v;
     currentAdcode := a; currentRegionNames := currentRegionNames v |}.

Definition setCurrentRegionNames (r : RegionArray) (v : ViewState) : ViewState :=
  {| isLoading := isLoading v; error := error v; dates := dates v;
     selectedDate := selectedDate v; currentMapName := currentMapName v;
     currentAdcode := currentAdcode v; currentRegionNames := r |}.

(** The part of the chart option that depends on the state; the styling
    constants of the option are the same in every redraw. *)
Record EChartsOption := {
  title_text : string;
  title_subtext : string;
  geo_map : string;
  series_data : list MapData
}.

(** The chart instance: the option of its last [setOption(option, true)]. *)
Record Chart := {
  chartOption : option EChartsOption
}.

(** An invocation of [loadMap] suspended at one of its two [await]s. *)
Inductive Pending :=
| AwaitFetch (adcode : JsValue) (mapName : string)
| AwaitJson (adcode : JsValue) (mapName : string).

Inductive LogEntry :=
| ConsoleLog (msg : string)
| ConsoleError (msg : string).

(** The dependency array of the render effect:
    [[currentMapName, currentRegionNames, selectedDate, isLoading]]. *)
Definition Deps : Type := string * nat * string * bool.

Record World := {
  view : ViewState;
  mapCache : gmap string GeoJSON;        (* mapCache.current *)
  registeredMaps : gmap string GeoJSON;  (* maps given to echarts.registerMap *)
  chartInstance : option Chart;          (* chartInstance.current *)
  requests : list string;                (* URLs fetched so far, oldest first *)
  pending : list Pending;                (* suspended loadMap invocations *)
  console : list LogEntry;
  effectDeps : option Deps;              (* dependencies at the last commit *)
  randomCalls : nat;                     (* draws made from Math.random *)
  renders : nat;                         (* redraws: generateData + setOption *)
  nextArrayId : nat                      (* identity of the next new array *)
}.

Definition withView (f : ViewState -> ViewState) (w : World) : World :=
  {| view := f (view w); mapCache := mapCache w; registeredMaps := registeredMaps w;
     chartInstance := chartInstance w; requests := requests w; pending := pending w;
     console := console w; effectDeps := effectDeps w; randomCalls := randomCalls w;
     renders := renders w; nextArrayId := nextArrayId w |}.

Definition withMapCache (c : gmap string GeoJSON) (w : World) : World :=
  {| view := view w; mapCache := c; registeredMaps := registeredMaps w;
     chartInstance := chartInstance w; requests := requests w; pending := pending w;
     console := console w; effectDeps := effectDeps w; randomCalls := randomCalls w;
     renders := renders w; nextArrayId := nextArrayId w |}.

Definition withRegisteredMaps (r : gmap string GeoJSON) (w : World) : World :=
  {| view := view w; mapCache := mapCache w; registeredMaps := r;
     chartInstance := chartInstance w; requests := requests w; pending := pending w;
     console := console w; effectDeps := effectDeps w; randomCalls := randomCalls w;
     renders := renders w; nextArrayId := nextArrayId w |}.

Definition withChartInstance (c : option Chart) (w : World) : World :=
  {| view := view w; mapCache := mapCache w; registeredMaps := registeredMaps w;
     chartInstance := c; requests := requests w; pending := pending w;
     console := console w; effectDeps := effectDeps w; randomCalls := randomCalls w;
     renders := renders w; nextArrayId := nextArrayId w |}.

Definition withRequests (r : list string) (w : World) : World :=
  {| view := view w; mapCache := mapCache w; registeredMaps := registeredMaps w;
     chartInstance := chartInstance w; requests := r; pending := pending w;
     console := console w; effectDeps := effectDeps w; randomCalls := randomCalls w;
     renders := renders w; nextArrayId := nextArrayId w |}.

Definition withPending (p : list Pending) (w : World) : World :=
  {| view := view w; mapCache := mapCache w; registeredMaps := registeredMaps w;
     chartInstance := chartInstance w; requests := requests w; pending := p;
     console := console w; effectDeps := effectDeps w; randomCalls := randomCalls w;
     renders := renders w; nextArrayId := nextArrayId w |}.

Definition withConsole (c : list LogEntry) (w : World) : World :=
  {| view := view w; mapCache := mapCache w; registeredMaps := registeredMaps w;
     chartInstance := chartInstance w; requests := requests w; pending := pending w;
     console := c; effectDeps := effectDeps w; randomCalls := randomCalls w;
     renders := renders w; nextArrayId := nextArrayId w |}.

Definition withEffectDeps (d : option Deps) (w : World) : World :=
  {| view := view w; mapCache := mapCache w; registeredMaps := registeredMaps w;
     chartInstance := chartInstance w; requests := requests w; pending := pending w;
     console := console w; effectDeps := d; randomCalls := randomCalls w;
     renders := renders w; nextArrayId := nextArrayId w |}.

Definition withRandomCalls (n : nat) (w : World) : World :=
  {| view := view w; mapCache := mapCache w; registeredMaps := registeredMaps w;
     chartInstance := chartInstance w; requests := requests w; pending := pending w;
     console := console w; effectDeps := effectDeps w; randomCalls := n;
     renders := renders w; nextArrayId := nextArrayId w |}.

Definition withRenders (n : nat) (w : World) : World :=
  {| view := view w; mapCache := mapCache w; registeredMaps := registeredMaps w;
     chartInstance := chartInstance w; requests := requests w; pending := pending w;
     console := console w; effectDeps := effectDeps w; randomCalls := randomCalls w;
     renders := n; nextArrayId := nextArrayId w |}.

Definition withNextArrayId (n : nat) (w : World) : World :=
  {| view := view w; mapCache := mapCache w; registeredMaps := registeredMaps w;
     chartInstance := chartInstance w; requests := requests w; pending := pending w;
     console := console w; effectDeps := effectDeps w; randomCalls := randomCalls w;
     renders := renders w; nextArrayId := n |}.

Definition console_log (msg : string) (w : World) : World :=
  withConsole (console w ++ [ConsoleLog msg]) w.

Definition console_error (msg : string) (w : World) : World :=
  withConsole (console w ++ [ConsoleError msg]) w.

(** ** The map loader *)

Definition mapUrl (adcode : JsValue) : string :=
  MAP_BASE_URL +:+ "/" +:+ ToString adcode +:+ "_full.json".

Definition loadErrorMessage (mapName : string) : string :=
  "Unable to load map for " +:+ mapName +:+ ". Please check network or adcode.".

Definition httpErrorMessage (mapName : string) : string :=
  "Failed to load map data for " +:+ mapName.

(** [geoJson.features.map(f => f.properties.name).filter(Boolean)] *)
Definition subRegionsOf (geoJson : GeoJSON) : list string :=
  List.filter Boolean (map (fun f => props_name (properties f)) (features geoJson)).

(** What a transition did with respect to loading. *)
Inductive Outcome :=
| Idle
| LoadSuspended
| LoadSucceeded (adcode : JsValue) (mapName : string) (geoJson : GeoJSON)
| LoadFailed (mapName : string) (err : string).

(** How the network settles the [fetch], and how the body parses. *)
Inductive FetchResult :=
| FetchRejected (reason : string)
| FetchResponse (ok : bool).

Inductive JsonResult :=
| JsonRejected (reason : string)
| JsonParsed (geoJson : GeoJSON).

(** The end of the [try] block, once [geoJson] is at hand: register the map,
    extract the sub-region names, update the state. *)
Definition loadMap_finish (adcode : JsValue) (mapName : string) (geoJson : GeoJSON)
    (w : World) : World :=
  let w := withRegisteredMaps (<[mapName := geoJson]> (registeredMaps w)) w in
  let subRegions := {| array_id := nextArrayId w; elements := subRegionsOf geoJson |} in
  let w := withNextArrayId (S (nextArrayId w)) w in
  let w := withView (setCurrentRegionNames subRegions) w in
  let w := withView (setCurrentMapName mapName) w in
  let w := withView (setCurrentAdcode adcode) w in
  withView (setIsLoading false) w.

(** The [catch] block. *)
Definition loadMap_catch (mapName : string) (err : string) (w : World) : World :=
  let w := console_error err w in
  let w := withView (setError (Some (loadErrorMessage mapName))) w in
  withView (setIsLoading false) w.

(** [loadMap(adcode, mapName)] up to its first suspension: on a cache hit the
    whole body runs, on a miss the request is issued and the invocation
    waits for the response. *)
Definition loadMap (adcode : JsValue) (mapName : string) (w : World) : World * Outcome :=
  let w := withView (setIsLoading true) w in
  let w := withView (setError None) w in
  match mapCache w !! mapName with
  | Some geoJson =>
      (loadMap_finish adcode mapName geoJson w, LoadSucceeded adcode mapName geoJson)
  | None =>
      let w := withRequests (requests w ++ [mapUrl adcode]) w in
      (withPending (pending w ++ [AwaitFetch adcode mapName]) w, LoadSuspended)
  end.

(** The [i]-th suspended invocation resumes after [await fetch(...)]. *)
Definition resumeFetch (i : nat) (r : FetchResult) (w : World) : World * Outcome :=
  match pending w !! i with
  | Some (AwaitFetch adcode mapName) =>
      match r with
      | FetchRejected reason =>
          (loadMap_catch mapName reason (withPending (delete i (pending w)) w),
           LoadFailed mapName reason)
      | FetchResponse ok =>
          if negb ok
          then (loadMap_catch mapName (httpErrorMessage mapName)
                  (withPending (delete i (pending w)) w),
                LoadFailed mapName (httpErrorMessage mapName))
          else (withPending (<[i := AwaitJson adcode mapName]> (pending w)) w,
                LoadSuspended)
      end
  | _ => (w, Idle)
  end.

(** The [i]-th suspended invocation resumes after [await response.json()]. *)
Definition resumeJson (i : nat) (r : JsonResult) (w : World) : World * Outcome :=
  match pending w !! i with
  | Some (AwaitJson adcode mapName) =>
      let w := withPending (delete i (pending w)) w in
      match r with
      | JsonRejected reason =>
          (loadMap_catch mapName reason w, LoadFailed mapName reason)
      | JsonParsed geoJson =>
          let w := withMapCache (<[mapName := geoJson]> (mapCache w)) w in
          (loadMap_finish adcode mapName geoJson w, LoadSucceeded adcode mapName geoJson)
      end
  | _ => (w, Idle)
  end.

(** ** Event handlers *)

(** The chart's click handler (drill-down). *)
Definition onChartClick (componentType name : string) (w : World) : World * Outcome :=
  if String.eqb componentType "series" && Boolean name then
    let provinceName := name in
    match record_get provinceName PROVINCE_ADCODES with
    | Some adcode =>
        if ToBoolean adcode then
          loadMap adcode provinceName
            (console_log ("Entering Province: " +:+ provinceName +:+ " (Adcode: "
                            +:+ ToString adcode +:+ ")") w)
        else (console_log "No adcode found or reached leaf node." w, Idle)
    | None => (console_log "No adcode found or reached leaf node." w, Idle)
    end
  else (w, Idle).

Definition handleBackToNational (w : World) : World * Outcome :=
  loadMap 100000 "china" w.

(** What can happen to the mounted component: user input and the settling of
    a suspended load. *)
Inductive Event :=
| Click (componentType name : string)
| BackToNational
| SelectDate (date : string)
| FetchSettled (i : nat) (r : FetchResult)
| JsonSettled (i : nat) (r : JsonResult).

Definition handle (e : Event) (w : World) : World * Outcome :=
  match e with
  | Click componentType name => onChartClick componentType name w
  | BackToNational => handleBackToNational w
  | SelectDate date => (withView (setSelectedDate date) w, Idle)
  | FetchSettled i r => resumeFetch i r w
  | JsonSettled i r => resumeJson i r w
  end.

(** ** Rendering *)

Definition currentDeps (v : ViewState) : Deps :=
  (currentMapName v, array_id (currentRegionNames v), selectedDate v, isLoading v).

Definition titleText (mapName : string) : string :=
  if String.eqb mapName "china" then "全国实盘订单量监控"
  else mapName +:+ "实盘数据详情".

Section Machine.
Variable rand : nat -> Q.

(** The body of the render effect. *)
Definition renderEffect (w : World) : World :=
  match chartInstance w with
  | None => w
  | Some chart =>
      if isLoading (view w) then w
      else
        let (data, calls) :=
          generateData rand (elements (currentRegionNames (view w))) (randomCalls w) in
        let option :=
          {| title_text := titleText (currentMapName (view w));
             title_subtext := "Data Date: " +:+ selectedDate (view w);
             geo_map := currentMapName (view w);
             series_data := data |} in
        withRenders (S (renders w))
          (withRandomCalls calls
             (withChartInstance (Some {| chartOption := Some option |}) w))
  end.

(** React commits the batch of updates an event made: the render effect
    runs when one of its dependencies differs from the last commit. *)
Definition commit (w : World) : World :=
  let deps := currentDeps (view w) in
  if decide (effectDeps w = Some deps) then w
  else renderEffect (withEffectDeps (Some deps) w).

Definition step (e : Event) (w : World) : World := commit (fst (handle e w)).

Definition outcome (e : Event) (w : World) : Outcome := snd (handle e w).

Fixpoint run (es : list Event) (w : World) : World :=
  match es with
  | [] => w
  | e :: es' => run es' (step e w)
  end.

(** ** Start-up *)
Section Mount.
Variable tz : JsDate.TimeZone.
Variable clock : nat -> Z.

(** The first render evaluates [getLast7Days()] twice, once for [dates]
    and once more for [selectedDate]. *)
Definition initialView : ViewState :=
  {| isLoading := true;
     error := None;
     dates := getLast7Days tz clock;
     selectedDate := nth 6 (getLast7Days tz (fun k => clock (7 + k)%nat)) "";
     currentMapName := "china";
     currentAdcode := 100000;
     currentRegionNames := {| array_id := 0; elements := INITIAL_PROVINCES |} |}.

Definition initialWorld : World :=
  {| view := initialView; mapCache := ∅; registeredMaps := ∅;
     chartInstance := None; requests := []; pending := []; console := [];
     effectDeps := None; randomCalls := 0; renders := 0; nextArrayId := 1 |}.

(** The mount effects, in source order: the initial load, the creation
    of the chart, the first run of the render effect. *)
Definition mount (w : World) : World :=
  let w := fst (loadMap 100000 "china" w) in
  let w := match chartInstance w with
           | None => withChartInstance (Some {| chartOption := None |}) w
           | Some _ => w
           end in
  commit w.

Definition mounted : World := mount initialWorld.
End Mount.
End Machine.

(** Worlds the component can be in after start-up. *)
Inductive reachable (rand : nat -> Q) (tz : JsDate.TimeZone) (clock : nat -> Z)
  : World -> Prop :=
| reachable_mounted : reachable rand tz clock (mounted rand tz clock)
| reachable_step (e : Event) (w : World) :
    reachable rand tz clock w -> reachable rand tz clock (step rand e w).

(** ** Vocabulary of the statements *)

(** A transition settles a load when it ends the [try] block or runs the
    [catch] block. *)
Definition settled (o : Outcome) : bool :=
  match o with
  | LoadSucceeded _ _ _ | LoadFailed _ _ => true
  | Idle | LoadSuspended => false
  end.


(** The two expressions of a sample, as functions of the draw they use. *)
Definition sampleValue (r : Q) : Z := Math_floor (Double.mul r 9000) + 1000.

Definition sampleGrowth (r : Q) : Q :=
  parseFloat_hundredths
    (toFixed2 (Double.sub (Double.mul r (literal (4 # 10))) (literal (2 # 10)))).

Definition fetchFails (r : FetchResult) : bool :=
  match r with
  | FetchRejected _ => true
  | FetchResponse ok => negb ok
  end.

(** The visible region set as the specification words it: the feature names
    of the geometry, in feature order, without the empty ones. *)
Definition featureNames (geoJson : GeoJSON) : list string :=
  map (fun f => props_name (properties f)) (features geoJson).

Fixpoint withoutEmpty (names : list string) : list string :=
  match names with
  | [] => []
  | n :: rest => if decide (n = "") then withoutEmpty rest else n :: withoutEmpty rest
  end.

(** ** Sample data for the worked instances *)

Definition sampleFeature (n : string) (code : Z) : GeoJSONFeature :=
  {| feature_type := "Feature";
     properties := {| props_name := n; props_cp := None; props_center := None;
                      props_adcode := Some code |};
     geometry := "MultiPolygon" |}.

Definition sampleChina : GeoJSON :=
  {| geo_type := "FeatureCollection";
     features := [sampleFeature "北京市" 110000; sampleFeature "" 100000;
                  sampleFeature "广东省" 440000] |}.

Definition sampleGuangdong : GeoJSON :=
  {| geo_type := "FeatureCollection";
     features := [sampleFeature "广州市" 440100; sampleFeature "深圳市" 440300] |}.

(** A source of draws, each a multiple of 1/8. *)
Definition sampleRand (k : nat) : Q := Z.of_nat (k mod 8) # 8.

(** China Standard Time, and an instant at 03:00 of 2 November 2026 there
    (19:00 of 1 November in UTC). *)
Definition chinaStandardTime : JsDate.TimeZone := JsDate.fixedZone 480.

Definition sampleClock (k : nat) : Z := 1793559600000.

Definition sampleMounted : World := mounted sampleRand chinaStandardTime sampleClock.

(** The national map loaded and shown. *)
Definition sampleReady : World :=
  run sampleRand
    [FetchSettled 0 (FetchResponse true); JsonSettled 0 (JsonParsed sampleChina)]
    sampleMounted.

(** A drill-down into Guangdong waiting for the network. *)
Definition sampleDrilling : World :=
  step sampleRand (Click "series" "广东省") sampleReady.

(** The calendar date of the local time, written like the entries of the
    window: the day the user's clock shows. *)
Definition localISODate (tz : JsDate.TimeZone) (t : Z) : string :=
  JsDate.splitT0 (JsDate.toISOString (JsDate.LocalTime tz t)).

(** US Eastern time in 2026: UTC-5, and UTC-4 from 8 March 07:00 UTC to
    1 November 06:00 UTC (local times from 8 March 03:00 to 1 November
    02:00). *)
Definition usEastern2026 : JsDate.TimeZone :=
  {| JsDate.tzaOfUTC := fun t =>
       if (1772953200000 <=? t) && (t <? 1793512800000)
       then -4 * JsDate.msPerHour else -5 * JsDate.msPerHour;
     JsDate.tzaOfLocal := fun tl =>
       if (1772938800000 <=? tl) && (tl <? 1793498400000)
       then -4 * JsDate.msPerHour else -5 * JsDate.msPerHour |}.

(** ** Vocabulary of the further properties *)

(** The load a suspended invocation belongs to. *)
Definition pendingTarget (p : Pending) : JsValue * string :=
  match p with
  | AwaitFetch adcode mapName => (adcode, mapName)
  | AwaitJson adcode mapName => (adcode, mapName)
  end.

(** The maps the component asks for: the national map under its fixed code,
    or a name that [PROVINCE_ADCODES] has a property for, under the value of
    that property: a province under the registry's code, or a name inherited
    from [Object.prototype] under the inherited function or object. *)
Definition knownMap (adcode : JsValue) (mapName : string) : Prop :=
  (mapName = "china" ∧ adcode = JsNumber 100000)
  ∨ record_get mapName PROVINCE_ADCODES = Some adcode.

Definition knownUrl (url : string) : Prop :=
  ∃ adcode mapName, knownMap adcode mapName ∧ url = mapUrl adcode.

(** The chart shows the state: its last option was built from the current
    map name, selected date and region names. *)
Definition chartShows (v : ViewState) (c : option Chart) : Prop :=
  ∃ data,
    c = Some {| chartOption :=
                  Some {| title_text := titleText (currentMapName v);
                          title_subtext := "Data Date: " +:+ selectedDate v;
                          geo_map := currentMapName v;
                          series_data := data |} |}
    ∧ map name data = elements (currentRegionNames v).

(** What the render effect maintains between transitions. *)
Definition rendered (w : World) : Prop :=
  effectDeps w = Some (currentDeps (view w))
  ∧ (array_id (currentRegionNames (view w)) < nextArrayId w)%nat
  ∧ is_Some (chartInstance w)
  ∧ (isLoading (view w) = false -> chartShows (view w) (chartInstance w)).


(** The ways the first load can fail: at the fetch, rejected or answered
    with a status that is not ok, or at the parse of the body of an ok
    response. *)
Inductive firstLoadFailure : list Event -> Prop :=
| fails_at_fetch (r : FetchResult) :
    fetchFails r = true -> firstLoadFailure [FetchSettled 0 r]
| fails_at_parse (reason : string) :
    firstLoadFailure [FetchSettled 0 (FetchResponse true);
                      JsonSettled 0 (JsonRejected reason)].

(** A click on a region named like a member of [Object.prototype]. *)
Definition sampleInherited : World :=
  step sampleRand (Click "series" "constructor") sampleReady.

(** Two drill-downs whose responses are both being parsed. *)
Definition sampleRacing : World :=
  run sampleRand
    [Click "series" "广东省"; Click "series" "北京市";
     FetchSettled 0 (FetchResponse true); FetchSettled 1 (FetchResponse true)]
    sampleReady.

Definition sampleBeijing : GeoJSON :=
  {| geo_type := "FeatureCollection";
     features := [sampleFeature "东城区" 110101; sampleFeature "西城区" 110102] |}.

(** The kinds of change one event can make to the world, before the commit:
    nothing, a console line, a date selection, a load served from the cache,
    a load sent to the network, a failed load, a response handed to the
    parser, a parsed response. *)
Inductive transition (w : World) : World -> Prop :=
| tr_idle : transition w w
| tr_log (msg : string) : transition w (console_log msg w)
| tr_select (date : string) : transition w (withView (setSelectedDate date) w)
| tr_hit (adcode : JsValue) (mapName : string) (geoJson : GeoJSON) (logs : list LogEntry) :
    knownMap adcode mapName ->
    mapCache w !! mapName = Some geoJson ->
    transition w
      (loadMap_finish adcode mapName geoJson
         (withView (setError None)
            (withView (setIsLoading true) (withConsole (console w ++ logs) w))))
| tr_miss (adcode : JsValue) (mapName : string) (logs : list LogEntry) :
    knownMap adcode mapName ->
    mapCache w !! mapName = None ->
    transition w
      (withPending (pending w ++ [AwaitFetch adcode mapName])
         (withRequests (requests w ++ [mapUrl adcode])
            (withView (setError None)
               (withView (setIsLoading true) (withConsole (console w ++ logs) w)))))
| tr_fail (i : nat) (p : Pending) (err : string) :
    pending w !! i = Some p ->
    transition w
      (loadMap_catch (pendingTarget p).2 err (withPending (delete i (pending w)) w))
| tr_parse (i : nat) (adcode : JsValue) (mapName : string) :
    pending w !! i = Some (AwaitFetch adcode mapName) ->
    transition w (withPending (<[i := AwaitJson adcode mapName]> (pending w)) w)
| tr_success (i : nat) (adcode : JsValue) (mapName : string) (geoJson : GeoJSON) :
    pending w !! i = Some (AwaitJson adcode mapName) ->
    transition w
      (loadMap_finish adcode mapName geoJson
         (withMapCache (<[mapName := geoJson]> (mapCache w))
            (withPending (delete i (pending w)) w))).

(** Every map in play is one the component asks for: the map shown, the
    maps of the suspended loads, and the URLs requested so far. *)
Definition knownWorld (w : World) : Prop :=
  knownMap (currentAdcode (view w)) (currentMapName (view w))
  ∧ Forall (fun p => knownMap (pendingTarget p).1 (pendingTarget p).2) (pending w)
  ∧ Forall knownUrl (requests w).

(** The visible names come from the geometry registered under the map
    shown, or are still the initial provinces. *)
Definition namesFromGeometry (w : World) : Prop :=
  (currentRegionNames (view w) = {| array_id := 0; elements := INITIAL_PROVINCES |}
   ∧ currentMapName (view w) = "china")
  ∨ ∃ geoJson,
      registeredMaps w !! currentMapName (view w) = Some geoJson
      ∧ elements (currentRegionNames (view w)) = subRegionsOf geoJson.

(** The first character of a string, [None] for the empty string. *)
Definition String_head (s : string) : option ascii :=
  match s with
  | EmptyString => None
  | String c _ => Some c
  end.

Definition isDigit (c : ascii) : Prop := (48 <= nat_of_ascii c <= 57)%nat.



(** The number written by a string of decimal digits. *)
Definition digitValue (c : ascii) : Z := Z.of_nat (nat_of_ascii c) - 48.

Fixpoint digitsValue_from (acc : Z) (s : string) : Z :=
  match s with
  | EmptyString => acc
  | String c rest => digitsValue_from (10 * acc + digitValue c) rest
  end.

Definition digitsValue (s : string) : Z := digitsValue_from 0 s.

(** What makes a fixed-width field of a date well formed: its width, no
    ['T'] inside, and the number it was written from can be read back. *)
Definition fieldOk (width : nat) (n : Z) : Prop :=
  String.length (JsDate.pad width n) = width
  ∧ JsDate.splitT0 (JsDate.pad width n) = JsDate.pad width n
  ∧ digitsValue (JsDate.pad width n) = n.

(** * Properties *)

(** ** Committing never touches what the loader owns *)

Section CommitFrame.
Variable rand : nat -> Q.

Lemma renderEffect_view w : view (renderEffect rand w) = view w.
Proof.
  unfold renderEffect. destruct (chartInstance w); [|done].
  destruct (isLoading (view w)); [done|].
  by destruct (generateData _ _ _).
Qed.

Lemma renderEffect_loader w :
  mapCache (renderEffect rand w) = mapCache w
  ∧ registeredMaps (renderEffect rand w) = registeredMaps w
  ∧ requests (renderEffect rand w) = requests w
  ∧ pending (renderEffect rand w) = pending w
  ∧ console (renderEffect rand w) = console w
  ∧ effectDeps (renderEffect rand w) = effectDeps w.
Proof.
  unfold renderEffect. destruct (chartInstance w); [|done].
  destruct (isLoading (view w)); [done|].
  by destruct (generateData _ _ _).
Qed.

Lemma commit_view w : view (commit rand w) = view w.
Proof.
  unfold commit. case_decide; [done|]. by rewrite renderEffect_view.
Qed.

Lemma commit_loader w :
  mapCache (commit rand w) = mapCache w
  ∧ registeredMaps (commit rand w) = registeredMaps w
  ∧ requests (commit rand w) = requests w
  ∧ pending (commit rand w) = pending w
  ∧ console (commit rand w) = console w.
Proof.
  unfold commit. case_decide; [done|].
  destruct (renderEffect_loader (withEffectDeps (Some (currentDeps (view w))) w))
    as (-> & -> & -> & -> & -> & _).
  done.
Qed.

(** After a commit the recorded dependencies are the current ones. *)
Lemma commit_effectDeps w :
  effectDeps (commit rand w) = Some (currentDeps (view (commit rand w))).
Proof.
  rewrite commit_view. unfold commit. case_decide; [done|].
  by destruct (renderEffect_loader (withEffectDeps (Some (currentDeps (view w))) w))
    as (_ & _ & _ & _ & _ & ->).
Qed.

(** A committed world is a fixed point of [commit]. *)
Lemma commit_idle w :
  effectDeps w = Some (currentDeps (view w)) -> commit rand w = w.
Proof. intros H. unfold commit. by rewrite decide_True. Qed.

Lemma step_view e w : view (step rand e w) = view (fst (handle e w)).
Proof. apply commit_view. Qed.

Lemma step_loader e w :
  mapCache (step rand e w) = mapCache (fst (handle e w))
  ∧ registeredMaps (step rand e w) = registeredMaps (fst (handle e w))
  ∧ requests (step rand e w) = requests (fst (handle e w))
  ∧ pending (step rand e w) = pending (fst (handle e w))
  ∧ console (step rand e w) = console (fst (handle e w)).
Proof. apply commit_loader. Qed.
End CommitFrame.

(** ** The loader, case by case *)

Lemma loadMap_hit adcode mapName geoJson w :
  mapCache w !! mapName = Some geoJson ->
  loadMap adcode mapName w =
    (loadMap_finish adcode mapName geoJson
       (withView (setError None) (withView (setIsLoading true) w)),
     LoadSucceeded adcode mapName geoJson).
Proof. intros H. unfold loadMap. cbn. by rewrite H. Qed.

Lemma loadMap_miss adcode mapName w :
  mapCache w !! mapName = None ->
  loadMap adcode mapName w =
    (withPending (pending w ++ [AwaitFetch adcode mapName])
       (withRequests (requests w ++ [mapUrl adcode])
          (withView (setError None) (withView (setIsLoading true) w))),
     LoadSuspended).
Proof. intros H. unfold loadMap. cbn. by rewrite H. Qed.

(** Inversion of the outcome labels of [loadMap]. *)
Lemma loadMap_outcome adcode mapName w :
  match snd (loadMap adcode mapName w) with
  | LoadSucceeded a m g =>
      a = adcode ∧ m = mapName ∧ mapCache w !! mapName = Some g
  | LoadSuspended => mapCache w !! mapName = None
  | _ => False
  end.
Proof.
  destruct (mapCache w !! mapName) as [g|] eqn:H.
  - by rewrite (loadMap_hit _ _ _ _ H).
  - by rewrite (loadMap_miss _ _ _ H).
Qed.

(** A transition that ends in failure is the resumption of a suspended load
    whose fetch or parse went wrong, and it ran the [catch] block. *)
Lemma handle_failed e w mapName err :
  snd (handle e w) = LoadFailed mapName err ->
  ∃ i, fst (handle e w) =
         loadMap_catch mapName err (withPending (delete i (pending w)) w).
Proof.
  destruct e as [ct n| |d|i r|i r]; cbn.
  - unfold onChartClick. destruct (_ && _); [|done].
    destruct (record_get _ _) as [a|]; [|done].
    destruct (ToBoolean a); [|done].
    intros H. pose proof (loadMap_outcome a n
      (console_log ("Entering Province: " +:+ n +:+ " (Adcode: " +:+ ToString a +:+ ")") w)) as Ho.
    rewrite H in Ho. done.
  - unfold handleBackToNational. intros H.
    pose proof (loadMap_outcome 100000 "china" w) as Ho. rewrite H in Ho. done.
  - done.
  - unfold resumeFetch. destruct (pending w !! i) as [[a m|a m]|]; [|done..].
    destruct r as [reason|[|]]; cbn; [|done|]; intros [= <- <-]; by exists i.
  - unfold resumeJson. destruct (pending w !! i) as [[a m|a m]|]; [done| |done].
    destruct r as [reason|g]; cbn; [|done]. intros [= <- <-]. by exists i.
Qed.

(** A transition that ends in success ran the end of the [try] block on the
    geometry it names, which by then is in the cache under the map name. *)
Lemma handle_succeeded e w adcode mapName geoJson :
  snd (handle e w) = LoadSucceeded adcode mapName geoJson ->
  ∃ w', fst (handle e w) = loadMap_finish adcode mapName geoJson w'
        ∧ mapCache w' !! mapName = Some geoJson.
Proof.
  destruct e as [ct n| |d|i r|i r]; cbn.
  - unfold onChartClick. destruct (_ && _); [|done].
    destruct (record_get _ _) as [a|]; [|done].
    destruct (ToBoolean a); [|done].
    set (w1 := console_log _ w). intros H.
    pose proof (loadMap_outcome a n w1) as Ho. rewrite H in Ho.
    destruct Ho as (-> & -> & Hc).
    rewrite (loadMap_hit _ _ _ _ Hc). cbn. eexists. split; [done|]. done.
  - unfold handleBackToNational. intros H.
    pose proof (loadMap_outcome 100000 "china" w) as Ho. rewrite H in Ho.
    destruct Ho as (-> & -> & Hc).
    rewrite (loadMap_hit _ _ _ _ Hc). cbn. eexists. split; [done|]. done.
  - done.
  - unfold resumeFetch. destruct (pending w !! i) as [[a m|a m]|]; [|done..].
    by destruct r as [reason|[|]].
  - unfold resumeJson. destruct (pending w !! i) as [[a m|a m]|]; [done| |done].
    destruct r as [reason|g]; cbn; [done|]. intros [= <- <- <-].
    eexists. split; [done|]. cbn. apply lookup_insert_eq.
Qed.

(** ** Cache hits *)

(** C1.  For every map identifier present in the boundary cache, [loadMap]
    with that identifier issues no network request (the request log and the
    list of suspended loads are as before, also after the commit) and
    completes at once with the cached geometry: that geometry is registered
    under the identifier and the visible names are extracted from it. *)
Theorem C1_cache_hit_issues_no_request
    (rand : nat -> Q) (adcode : JsValue) (mapName : string) (geoJson : GeoJSON) (w : World) :
  mapCache w !! mapName = Some geoJson ->
  let w' := fst (loadMap adcode mapName w) in
  requests w' = requests w
  ∧ pending w' = pending w
  ∧ requests (commit rand w') = requests w
  ∧ snd (loadMap adcode mapName w) = LoadSucceeded adcode mapName geoJson
  ∧ mapCache w' = mapCache w
  ∧ registeredMaps w' !! mapName = Some geoJson
  ∧ elements (currentRegionNames (view w')) = subRegionsOf geoJson
  ∧ currentMapName (view w') = mapName
  ∧ isLoading (view w') = false
  ∧ error (view w') = None.
Proof.
  intros H w'. subst w'. rewrite (loadMap_hit _ _ _ _ H). cbn.
  destruct (commit_loader rand
    (loadMap_finish adcode mapName geoJson
       (withView (setError None) (withView (setIsLoading true) w))))
    as (_ & _ & -> & _).
  cbn. repeat split; try done. apply lookup_insert_eq.
Qed.

Lemma C1_cache_hit_witness :
  mapCache sampleReady !! "china" = Some sampleChina
  ∧ requests (fst (loadMap 100000 "china" sampleReady)) = requests sampleReady.
Proof.
  assert (mapCache sampleReady !! "china" = Some sampleChina) as H
    by (vm_compute; reflexivity).
  split; [exact H|].
  exact (proj1 (C1_cache_hit_issues_no_request
                  sampleRand 100000 "china" sampleChina sampleReady H)).
Defined.

(** ** The loading flag *)

Lemma loadMap_finish_isLoading adcode mapName geoJson w :
  isLoading (view (loadMap_finish adcode mapName geoJson w)) = false.
Proof. done. Qed.

Lemma loadMap_catch_isLoading mapName err w :
  isLoading (view (loadMap_catch mapName err w)) = false.
Proof. done. Qed.

(** C2.  Whenever a transition settles a load, in success or in failure, the
    loading flag is false right after it; an invocation that has to wait for
    the network leaves the flag true and the load suspended, and one served
    from the cache settles at once with the flag false. *)
Theorem C2_loading_false_after_settlement
    (rand : nat -> Q) (e : Event) (w : World) :
  (settled (outcome e w) = true -> isLoading (view (step rand e w)) = false)
  ∧ (forall adcode mapName,
       mapCache w !! mapName = None ->
       isLoading (view (fst (loadMap adcode mapName w))) = true
       ∧ snd (loadMap adcode mapName w) = LoadSuspended
       ∧ pending (fst (loadMap adcode mapName w))
         = pending w ++ [AwaitFetch adcode mapName])
  ∧ (forall adcode mapName,
       is_Some (mapCache w !! mapName) ->
       isLoading (view (fst (loadMap adcode mapName w))) = false
       ∧ settled (snd (loadMap adcode mapName w)) = true).
Proof.
  split; [|split].
  - unfold outcome. rewrite step_view.
    destruct (snd (handle e w)) as [| |a m g|m err] eqn:Ho; try done; intros _.
    + destruct (handle_succeeded _ _ _ _ _ Ho) as (w' & -> & _).
      apply loadMap_finish_isLoading.
    + destruct (handle_failed _ _ _ _ Ho) as (i & ->).
      apply loadMap_catch_isLoading.
  - intros adcode mapName H. by rewrite (loadMap_miss _ _ _ H).
  - intros adcode mapName [g H]. by rewrite (loadMap_hit _ _ _ _ H).
Qed.

Lemma C2_loading_witness :
  settled (outcome (FetchSettled 0 (FetchResponse false)) sampleDrilling) = true
  ∧ isLoading (view (step sampleRand (FetchSettled 0 (FetchResponse false)) sampleDrilling))
    = false.
Proof.
  assert (settled (outcome (FetchSettled 0 (FetchResponse false)) sampleDrilling) = true)
    as H by (vm_compute; reflexivity).
  split; [exact H|].
  exact (proj1 (C2_loading_false_after_settlement sampleRand
                  (FetchSettled 0 (FetchResponse false)) sampleDrilling) H).
Defined.

(** ** Clicks on regions outside the registry *)

(** A click on a name for which [PROVINCE_ADCODES] has no property at all,
    own or inherited, starts no load and issues no request, and leaves
    every field of the view state as it was; cache, registered maps and
    suspended loads are untouched as well.  The handler only writes a line
    to the console. *)
Lemma click_without_property_is_noop
    (rand : nat -> Q) (componentType name : string) (w : World) :
  record_get name PROVINCE_ADCODES = None ->
  let w' := step rand (Click componentType name) w in
  outcome (Click componentType name) w = Idle
  ∧ view w' = view w
  ∧ requests w' = requests w
  ∧ pending w' = pending w
  ∧ mapCache w' = mapCache w
  ∧ registeredMaps w' = registeredMaps w
  ∧ (effectDeps w = Some (currentDeps (view w)) ->
     w' = w ∨ w' = console_log "No adcode found or reached leaf node." w).
Proof.
  intros H w'. subst w'. unfold step, outcome. cbn. unfold onChartClick.
  rewrite H.
  destruct (commit_loader rand w) as (Hc & Hr & Hq & Hp & _).
  destruct (commit_loader rand (console_log "No adcode found or reached leaf node." w))
    as (Hc' & Hr' & Hq' & Hp' & _).
  destruct (_ && _); cbn; rewrite commit_view.
  - rewrite Hc', Hr', Hq', Hp'. repeat split; try done.
    intros Hd. right. by apply commit_idle.
  - rewrite Hc, Hr, Hq, Hp. repeat split; try done.
    intros Hd. left. by apply commit_idle.
Qed.

(** The members of [Object.prototype] have non-empty names and truthy
    values. *)
Lemma Object_prototype_truthy :
  Forall (fun p : string * JsValue => Boolean p.1 = true ∧ ToBoolean p.2 = true)
         Object_prototype.
Proof. apply (bool_decide_unpack _). vm_compute. exact I. Qed.

Lemma getOwnProperty_elem {A : Type} key (v : A) record :
  getOwnProperty key record = Some v -> (key, v) ∈ record.
Proof.
  induction record as [|[k v'] rest IH]; cbn; [done|].
  destruct (String.eqb k key) eqn:Hk.
  - apply String.eqb_eq in Hk as ->. intros [= ->]. apply list_elem_of_here.
  - intros H. apply list_elem_of_further, IH, H.
Qed.

(** C4.  The registry is an object literal indexed with the name clicked,
    so a name that is absent from it but is the name of a member of
    [Object.prototype] ([constructor], [toString], [__proto__], ...) is
    not a no-op: the lookup gives the inherited member, which is truthy,
    and the handler logs the entry and calls [loadMap] with it.  With no
    map cached under that name the loading flag goes up and a request is
    made to the URL built from the text of the member. *)
Theorem C4_inherited_name_starts_load
    (rand : nat -> Q) (name : string) (member : JsValue) (w : World) :
  getOwnProperty name PROVINCE_ADCODES = None ->
  getOwnProperty name Object_prototype = Some member ->
  mapCache w !! name = None ->
  let w' := step rand (Click "series" name) w in
  record_get name PROVINCE_ADCODES = Some member
  ∧ outcome (Click "series" name) w = LoadSuspended
  ∧ isLoading (view w') = true
  ∧ error (view w') = None
  ∧ requests w' = requests w ++ [mapUrl member]
  ∧ pending w' = pending w ++ [AwaitFetch member name]
  ∧ console w'
    = console w ++ [ConsoleLog ("Entering Province: " +:+ name +:+ " (Adcode: "
                                  +:+ ToString member +:+ ")")].
Proof.
  intros Hown Hproto Hmiss w'. subst w'.
  assert (record_get name PROVINCE_ADCODES = Some member) as Hget.
  { unfold record_get. by rewrite Hown. }
  pose proof Object_prototype_truthy as Hall. rewrite Forall_forall in Hall.
  destruct (Hall _ (getOwnProperty_elem _ _ _ Hproto)) as [Hn Ht].
  cbn [fst snd] in Hn, Ht.
  assert (handle (Click "series" name) w
          = loadMap member name
              (console_log ("Entering Province: " +:+ name +:+ " (Adcode: "
                              +:+ ToString member +:+ ")") w)) as Hh.
  { cbn [handle]. unfold onChartClick. rewrite Hn, Hget, Ht.
    by rewrite String.eqb_refl. }
  split; [exact Hget|]. unfold outcome.
  destruct (step_loader rand (Click "series" name) w) as (_ & _ & -> & -> & ->).
  rewrite step_view, Hh.
  rewrite loadMap_miss by exact Hmiss. done.
Qed.

Lemma C4_inherited_name_witness :
  getOwnProperty "constructor" PROVINCE_ADCODES = None
  ∧ getOwnProperty "constructor" Object_prototype = Some (JsFunction "Object")
  ∧ mapCache sampleReady !! "constructor" = None
  ∧ isLoading (view (step sampleRand (Click "series" "constructor") sampleReady)) = true
  ∧ requests (step sampleRand (Click "series" "constructor") sampleReady)
    = requests sampleReady ++ [mapUrl (JsFunction "Object")].
Proof.
  assert (getOwnProperty "constructor" PROVINCE_ADCODES = None) as H1
    by (vm_compute; reflexivity).
  assert (getOwnProperty "constructor" Object_prototype = Some (JsFunction "Object"))
    as H2 by (vm_compute; reflexivity).
  assert (mapCache sampleReady !! "constructor" = None) as H3
    by (vm_compute; reflexivity).
  split; [exact H1|]. split; [exact H2|]. split; [exact H3|].
  pose proof (C4_inherited_name_starts_load
                sampleRand "constructor" (JsFunction "Object") sampleReady H1 H2 H3)
    as (_ & _ & Hl & _ & Hr & _).
  split; [exact Hl | exact Hr].
Defined.

(** The request made at that click, and the line logged. *)
Example click_on_constructor :
  mapUrl (JsFunction "Object")
  = "https://geo.datav.aliyun.com/areas_v3/bound/function Object() { [native code] }_full.json"
  ∧ isLoading (view sampleReady) = false
  ∧ List.last (console (step sampleRand (Click "series" "constructor") sampleReady))
               (ConsoleLog "")
    = ConsoleLog
        "Entering Province: constructor (Adcode: function Object() { [native code] })".
Proof. split_and!; vm_compute; reflexivity. Qed.

(** ** The visible region names *)

(** The extraction written in the source is the removal of empty names. *)
Lemma subRegionsOf_withoutEmpty geoJson :
  subRegionsOf geoJson = withoutEmpty (featureNames geoJson).
Proof.
  unfold subRegionsOf, featureNames.
  induction (map _ (features geoJson)) as [|n rest IH]; [done|].
  cbn. rewrite IH. destruct n; by case_decide.
Qed.

Lemma withoutEmpty_sublist names : sublist (withoutEmpty names) names.
Proof.
  induction names as [|n rest IH]; cbn; [constructor|].
  case_decide; by constructor.
Qed.

Lemma withoutEmpty_elem n names :
  n ∈ withoutEmpty names ↔ n ∈ names ∧ n ≠ "".
Proof.
  induction names as [|m rest IH]; cbn.
  - split; [by intros ?%elem_of_nil | by intros [?%elem_of_nil _]].
  - case_decide as Hm; rewrite ?elem_of_cons, IH.
    + split; [intros [H1 H2]; split; [by right|done]|].
      intros [[->|H1] H2]; [done|by split].
    + split; [intros [->|[H1 H2]]; [split; [by left|done]|split; [by right|done]]|].
      intros [[->|H1] H2]; [by left|by right].
Qed.

(** C5.  Right after a load succeeds, the visible region names are the
    feature names of the geometry just loaded, in feature order, with the
    empty names removed and nothing else removed or added; that geometry is
    the one now cached and registered under the current map name. *)
Theorem C5_region_names_after_success
    (rand : nat -> Q) (e : Event) (w : World)
    (adcode : JsValue) (mapName : string) (geoJson : GeoJSON) :
  outcome e w = LoadSucceeded adcode mapName geoJson ->
  let w' := step rand e w in
  let names := elements (currentRegionNames (view w')) in
  names = withoutEmpty (featureNames geoJson)
  ∧ sublist names (featureNames geoJson)
  ∧ (forall n, n ∈ names ↔ n ∈ featureNames geoJson ∧ n ≠ "")
  ∧ currentMapName (view w') = mapName
  ∧ mapCache w' !! mapName = Some geoJson
  ∧ registeredMaps w' !! mapName = Some geoJson.
Proof.
  intros Ho. unfold outcome in Ho. cbv zeta.
  destruct (commit_loader rand (fst (handle e w))) as (Hc & Hr & _).
  unfold step. rewrite commit_view, Hc, Hr.
  destruct (handle_succeeded _ _ _ _ _ Ho) as (w1 & -> & Hhit).
  cbn. rewrite subRegionsOf_withoutEmpty.
  split_and!; try done.
  - apply withoutEmpty_sublist.
  - intros n. apply withoutEmpty_elem.
  - apply lookup_insert_eq.
Qed.

Lemma C5_region_names_witness :
  outcome (JsonSettled 0 (JsonParsed sampleChina))
    (step sampleRand (FetchSettled 0 (FetchResponse true)) sampleMounted)
  = LoadSucceeded 100000 "china" sampleChina
  ∧ elements (currentRegionNames (view
      (step sampleRand (JsonSettled 0 (JsonParsed sampleChina))
         (step sampleRand (FetchSettled 0 (FetchResponse true)) sampleMounted))))
    = withoutEmpty (featureNames sampleChina).
Proof.
  assert (outcome (JsonSettled 0 (JsonParsed sampleChina))
            (step sampleRand (FetchSettled 0 (FetchResponse true)) sampleMounted)
          = LoadSucceeded 100000 "china" sampleChina) as H
    by (vm_compute; reflexivity).
  split; [exact H|].
  exact (proj1 (C5_region_names_after_success sampleRand _ _ _ _ _ H)).
Defined.

(** ** Failed loads *)

Lemma delete_snoc {A} (l : list A) (x : A) : delete (length l) (l ++ [x]) = l.
Proof. induction l as [|a l IH]; [done|]. simpl. by f_equal. Qed.

Lemma insert_snoc {A} (l : list A) (x y : A) :
  <[length l := y]> (l ++ [x]) = l ++ [y].
Proof. induction l as [|a l IH]; [done|]. simpl. by f_equal. Qed.

Lemma lookup_snoc {A} (l : list A) (x : A) : (l ++ [x]) !! length l = Some x.
Proof. induction l as [|a l IH]; [done|]. done. Qed.

Lemma invoked_on_miss rand adcode mapName w0 :
  mapCache w0 !! mapName = None ->
  pending (commit rand (fst (loadMap adcode mapName w0)))
  = pending w0 ++ [AwaitFetch adcode mapName]
  ∧ view (commit rand (fst (loadMap adcode mapName w0)))
    = setError None (setIsLoading true (view w0)).
Proof.
  intros Hmiss.
  destruct (commit_loader rand (fst (loadMap adcode mapName w0)))
    as (_ & _ & _ & -> & _).
  by rewrite commit_view, (loadMap_miss _ _ _ Hmiss).
Qed.



(** ** The cache key *)

(** C10.  The cache is looked up by map name alone.  With the name cached,
    two loads that differ only in the administrative code end in worlds that
    agree on the geometry used, the region names, the map name, the cache,
    the registered maps and the request log, none of which mentions the
    code: the two worlds differ at most in the recorded [currentAdcode].
    On a miss the code picks the URL that is fetched. *)
Theorem C10_cache_keyed_by_map_name
    (adcode1 adcode2 : JsValue) (mapName : string) (geoJson : GeoJSON) (w : World) :
  mapCache w !! mapName = Some geoJson ->
  let w1 := fst (loadMap adcode1 mapName w) in
  let w2 := fst (loadMap adcode2 mapName w) in
  snd (loadMap adcode1 mapName w) = LoadSucceeded adcode1 mapName geoJson
  ∧ snd (loadMap adcode2 mapName w) = LoadSucceeded adcode2 mapName geoJson
  ∧ currentRegionNames (view w1) = currentRegionNames (view w2)
  ∧ currentMapName (view w1) = currentMapName (view w2)
  ∧ registeredMaps w1 = registeredMaps w2
  ∧ mapCache w1 = mapCache w2
  ∧ requests w1 = requests w ∧ requests w2 = requests w
  ∧ w2 = withView (setCurrentAdcode adcode2) w1
  ∧ (forall a1 a2 w0,
       mapCache w0 !! mapName = None ->
       let m1 := fst (loadMap a1 mapName w0) in
       let m2 := fst (loadMap a2 mapName w0) in
       requests m1 = requests w0 ++ [mapUrl a1]
       ∧ requests m2 = requests w0 ++ [mapUrl a2]
       ∧ view m1 = view m2
       ∧ mapCache m1 = mapCache m2
       ∧ registeredMaps m1 = registeredMaps m2).
Proof.
  intros H w1 w2. subst w1 w2. rewrite !(loadMap_hit _ _ _ _ H). cbn.
  do 9 (split; [done|]).
  intros a1 a2 w0 Hmiss. by rewrite !(loadMap_miss _ _ _ Hmiss).
Qed.

Lemma C10_cache_key_witness :
  mapCache sampleReady !! "china" = Some sampleChina
  ∧ currentRegionNames (view (fst (loadMap 100000 "china" sampleReady)))
    = currentRegionNames (view (fst (loadMap 440000 "china" sampleReady))).
Proof.
  assert (mapCache sampleReady !! "china" = Some sampleChina) as H
    by (vm_compute; reflexivity).
  split; [exact H|].
  exact (proj1 (proj2 (proj2 (C10_cache_keyed_by_map_name
                                100000 440000 "china" sampleChina sampleReady H)))).
Defined.

(** ** Errors *)

Section Errors.
Variable rand : nat -> Q.

Lemma run_snoc es e w : run rand (es ++ [e]) w = step rand e (run rand es w).
Proof. revert w. induction es as [|e' es IH]; intros w; [done|]. cbn. apply IH. Qed.

Lemma loadMap_error adcode mapName w :
  error (view (fst (loadMap adcode mapName w))) = None.
Proof.
  destruct (mapCache w !! mapName) as [g|] eqn:H.
  - by rewrite (loadMap_hit _ _ _ _ H).
  - by rewrite (loadMap_miss _ _ _ H).
Qed.

(** The only writer of a message is the [catch] block; every other
    transition clears the error or leaves it alone. *)
Lemma handle_error e w :
  match snd (handle e w) with
  | LoadFailed mapName _ =>
      error (view (fst (handle e w))) = Some (loadErrorMessage mapName)
  | _ =>
      error (view (fst (handle e w))) = None
      ∨ error (view (fst (handle e w))) = error (view w)
  end.
Proof.
  assert (forall a m w1,
            match snd (loadMap a m w1) with
            | LoadFailed mapName _ =>
                error (view (fst (loadMap a m w1))) = Some (loadErrorMessage mapName)
            | _ => error (view (fst (loadMap a m w1))) = None
                   ∨ error (view (fst (loadMap a m w1))) = error (view w)
            end) as Hload.
  { intros a m w1. destruct (mapCache w1 !! m) as [g|] eqn:H.
    - rewrite (loadMap_hit _ _ _ _ H). by left.
    - rewrite (loadMap_miss _ _ _ H). by left. }
  destruct e as [ct n| |d|i r|i r]; cbn.
  - unfold onChartClick. destruct (_ && _); [|by right].
    destruct (record_get _ _) as [c|]; [|by right].
    destruct (ToBoolean c); [|by right]. apply Hload.
  - apply Hload.
  - by right.
  - unfold resumeFetch. destruct (pending w !! i) as [[a m|a m]|]; try by right.
    destruct r as [reason|[|]]; cbn; try done; by right.
  - unfold resumeJson. destruct (pending w !! i) as [[a m|a m]|]; try by right.
    destruct r as [reason|g]; cbn; try done; by right.
Qed.

Lemma error_only_after_failure es w0 msg :
  error (view w0) = None ->
  error (view (run rand es w0)) = Some msg ->
  ∃ es1 e es2 mapName err,
    es = es1 ++ e :: es2
    ∧ outcome e (run rand es1 w0) = LoadFailed mapName err
    ∧ msg = loadErrorMessage mapName.
Proof.
  intros H0. induction es as [|e es IH] using rev_ind; cbn.
  - congruence.
  - rewrite run_snoc, step_view.
    pose proof (handle_error e (run rand es w0)) as He.
    destruct (snd (handle e (run rand es w0))) as [| |a m g|m err] eqn:Ho.
    4: { rewrite He. intros [= <-]. exists es, e, [], m, err. done. }
    all: destruct He as [->| ->]; [done|]; intros Hm;
         destruct (IH Hm) as (es1 & e1 & es2 & m1 & err1 & -> & Hf & ->);
         exists es1, e1, (es2 ++ [e]), m1, err1;
         by rewrite <- app_assoc.
Qed.

Lemma mount_error w : error (view (mount rand w)) = None.
Proof.
  unfold mount. cbv zeta. rewrite commit_view.
  pose proof (loadMap_error 100000 "china" w) as H. revert H.
  generalize (fst (loadMap 100000 "china" w)). intros w1 H.
  destruct (chartInstance w1); exact H.
Qed.

Lemma mounted_error tz clock : error (view (mounted rand tz clock)) = None.
Proof. apply mount_error. Qed.
End Errors.

(** C3.  Whatever goes wrong while a load waits for the network (the fetch
    is rejected, the response is not ok, the body does not parse) ends in
    the [catch] block: the transition is a failed load, the error state then
    holds the message built from the map name, and the loading flag is
    down.  The error is non-null only if some earlier transition was a
    failed load, whose message it is; and every invocation of [loadMap]
    leaves the error null, on a hit as on a miss. *)
Theorem C3_load_errors_caught_and_reported (rand : nat -> Q) :
  (forall i adcode mapName w r,
     pending w !! i = Some (AwaitFetch adcode mapName) ->
     fetchFails r = true ->
     ∃ err, outcome (FetchSettled i r) w = LoadFailed mapName err)
  ∧ (forall i adcode mapName w reason,
       pending w !! i = Some (AwaitJson adcode mapName) ->
       outcome (JsonSettled i (JsonRejected reason)) w = LoadFailed mapName reason)
  ∧ (forall e w mapName err,
       outcome e w = LoadFailed mapName err ->
       error (view (step rand e w))
       = Some ("Unable to load map for " +:+ mapName
                 +:+ ". Please check network or adcode.")
       ∧ isLoading (view (step rand e w)) = false)
  ∧ (forall es w0 msg,
       error (view w0) = None ->
       error (view (run rand es w0)) = Some msg ->
       ∃ es1 e es2 mapName err,
         es = es1 ++ e :: es2
         ∧ outcome e (run rand es1 w0) = LoadFailed mapName err
         ∧ msg = loadErrorMessage mapName)
  ∧ (forall tz clock es msg,
       error (view (run rand es (mounted rand tz clock))) = Some msg ->
       ∃ es1 e es2 mapName err,
         es = es1 ++ e :: es2
         ∧ outcome e (run rand es1 (mounted rand tz clock)) = LoadFailed mapName err
         ∧ msg = loadErrorMessage mapName)
  ∧ (forall adcode mapName w,
       error (view (fst (loadMap adcode mapName w))) = None).
Proof.
  split; [|split; [|split; [|split; [|split]]]].
  - intros i adcode mapName w r Hp Hr. unfold outcome. cbn. unfold resumeFetch.
    rewrite Hp. destruct r as [reason|[|]]; cbn in *; [by eexists|done|by eexists].
  - intros i adcode mapName w reason Hp. unfold outcome. cbn. unfold resumeJson.
    by rewrite Hp.
  - unfold outcome. intros e w mapName err Ho. rewrite step_view.
    by destruct (handle_failed _ _ _ _ Ho) as (i & ->).
  - apply error_only_after_failure.
  - intros tz clock es msg. apply error_only_after_failure, mounted_error.
  - apply loadMap_error.
Qed.

Lemma C3_load_errors_witness :
  outcome (FetchSettled 0 (FetchResponse false)) sampleDrilling
  = LoadFailed "广东省" (httpErrorMessage "广东省")
  ∧ error (view (step sampleRand (FetchSettled 0 (FetchResponse false)) sampleDrilling))
    = Some ("Unable to load map for " +:+ "广东省"
              +:+ ". Please check network or adcode.").
Proof.
  assert (outcome (FetchSettled 0 (FetchResponse false)) sampleDrilling
          = LoadFailed "广东省" (httpErrorMessage "广东省")) as H
    by (vm_compute; reflexivity).
  split; [exact H|].
  exact (proj1 (proj1 (proj2 (proj2 (C3_load_errors_caught_and_reported sampleRand)))
                  _ _ _ _ H)).
Defined.

(** ** Rounding to the nearest double *)

Section DoubleFacts.
Import Double.
Local Open Scope Q_scope.

Lemma pow2_pos e : 0 < pow2 e.
Proof. apply Qpower_0_lt. reflexivity. Qed.

Lemma pow2_add a b : pow2 (a + b) == pow2 a * pow2 b.
Proof. apply Qpower_plus. discriminate. Qed.

Lemma pow2_succ a : pow2 (a + 1) == 2 * pow2 a.
Proof. rewrite pow2_add. change (pow2 1) with 2. ring. Qed.

Lemma pow2_lt a b : (a < b)%Z -> pow2 a < pow2 b.
Proof. intros H. apply Qpower_lt_compat_l; [exact H|reflexivity]. Qed.

Lemma pow2_le a b : (a <= b)%Z -> pow2 a <= pow2 b.
Proof. intros H. apply Qpower_le_compat_l; [exact H|discriminate]. Qed.

Lemma pow2_lt_inv a b : pow2 a < pow2 b -> (a < b)%Z.
Proof. intros H. apply (Qpower_lt_compat_l_inv 2); [exact H|reflexivity]. Qed.

Lemma pow2_Z e : (0 <= e)%Z -> pow2 e == inject_Z (2 ^ e).
Proof. intros H. symmetry. apply (Zpower_Qpower 2 e H). Qed.

Lemma pow2_cancel x e : x * pow2 (- e) * pow2 e == x.
Proof.
  rewrite <- Qmult_assoc, <- pow2_add.
  replace (- e + e)%Z with 0%Z by lia. change (pow2 0) with 1. ring.
Qed.

Lemma ilog2_spec x : 0 < x -> pow2 (ilog2 x) <= x /\ x < pow2 (ilog2 x + 1).
Proof.
  intros Hx. destruct x as [p q]. unfold ilog2. cbn [Qnum Qden].
  assert (0 < p)%Z as Hp by (unfold Qlt in Hx; cbn in Hx; lia).
  set (a := Z.log2 p). set (b := Z.log2 (Z.pos q)).
  pose proof (Z.log2_spec p Hp) as Ha. fold a in Ha.
  pose proof (Z.log2_spec (Z.pos q) ltac:(lia)) as Hb. fold b in Hb.
  pose proof (Z.log2_nonneg p) as Ha0. fold a in Ha0.
  pose proof (Z.log2_nonneg (Z.pos q)) as Hb0. fold b in Hb0.
  assert (pow2 a <= inject_Z p /\ inject_Z p < 2 * pow2 a) as [HA1 HA2].
  { rewrite <- pow2_succ, !pow2_Z by lia. rewrite <- Zle_Qle, <- Zlt_Qlt.
    replace (a + 1)%Z with (Z.succ a) by lia. lia. }
  assert (pow2 b <= inject_Z (Z.pos q) /\ inject_Z (Z.pos q) < 2 * pow2 b) as [HB1 HB2].
  { rewrite <- pow2_succ, !pow2_Z by lia. rewrite <- Zle_Qle, <- Zlt_Qlt.
    replace (b + 1)%Z with (Z.succ b) by lia. lia. }
  assert ((p # q) * inject_Z (Z.pos q) == inject_Z p) as Hxq.
  { unfold Qeq, Qmult, inject_Z. cbn. lia. }
  assert (pow2 (a - b) * pow2 b == pow2 a) as Hd.
  { rewrite <- pow2_add. replace (a - b + b)%Z with a by lia. reflexivity. }
  assert (pow2 (a - b - 1) * (2 * pow2 b) == pow2 a) as Hd1.
  { rewrite <- pow2_succ, <- pow2_add.
    replace (a - b - 1 + (b + 1))%Z with a by lia. reflexivity. }
  assert (pow2 (a - b + 1) * pow2 b == 2 * pow2 a) as Hd2.
  { rewrite <- pow2_succ, <- pow2_add.
    replace (a - b + 1 + b)%Z with (a + 1)%Z by lia. reflexivity. }
  pose proof (pow2_pos a). pose proof (pow2_pos b).
  pose proof (pow2_pos (a - b)). pose proof (pow2_pos (a - b - 1)).
  pose proof (pow2_pos (a - b + 1)).
  set (x := p # q) in *. set (P := inject_Z p) in *. set (D := inject_Z (Z.pos q)) in *.
  destruct (Qle_bool (pow2 (a - b)) x) eqn:Hc.
  - apply Qle_bool_iff in Hc. split; [exact Hc|].
    apply (Qmult_lt_r _ _ (pow2 b)); [done|]. rewrite Hd2.
    apply Qle_lt_trans with (x * D); [|by rewrite Hxq].
    apply Qmult_le_l; [done|done].
  - assert (x < pow2 (a - b)) as Hlt.
    { apply Qnot_le_lt. intros Hle. apply Qle_bool_iff in Hle. congruence. }
    replace (a - b - 1 + 1)%Z with (a - b)%Z by lia. split; [|exact Hlt].
    apply (Qmult_le_r _ _ (2 * pow2 b)); [lra|]. rewrite Hd1.
    apply Qle_trans with (x * D); [by rewrite Hxq|].
    apply Qmult_le_l; [done|lra].
Qed.

Lemma rne_le q B : q <= inject_Z B -> (roundTiesToEven q <= B)%Z.
Proof.
  intros H. unfold roundTiesToEven.
  pose proof (Qfloor_le q) as Hf. pose proof (Qlt_floor q) as Hf1.
  rewrite inject_Z_plus in Hf1.
  assert (Qfloor q <= B)%Z as HfB by (rewrite Zle_Qle; lra).
  destruct (Z.eq_dec (Qfloor q) B) as [E|E].
  - assert (q - inject_Z (Qfloor q) < 1 # 2) as Hlt by (rewrite E; lra).
    rewrite (proj1 (Qlt_alt _ _) Hlt). lia.
  - destruct (q - inject_Z (Qfloor q) ?= 1 # 2); [destruct (Z.even _)|..]; lia.
Qed.

Lemma rne_below_half q B :
  q < inject_Z B - (1 # 2) -> (roundTiesToEven q <= B - 1)%Z.
Proof.
  intros H. unfold roundTiesToEven.
  pose proof (Qfloor_le q) as Hf. pose proof (Qlt_floor q) as Hf1.
  rewrite inject_Z_plus in Hf1.
  assert (Qfloor q <= B - 1)%Z as HfB.
  { assert (Qfloor q < B)%Z by (rewrite Zlt_Qlt; lra). lia. }
  destruct (Z.eq_dec (Qfloor q) (B - 1)%Z) as [E|E].
  - assert (q - inject_Z (Qfloor q) < 1 # 2) as Hlt.
    { assert (inject_Z (B - 1) == inject_Z B - 1) as HE
        by (unfold Z.sub; rewrite inject_Z_plus, inject_Z_opp; reflexivity).
      rewrite E, HE. lra. }
    rewrite (proj1 (Qlt_alt _ _) Hlt). lia.
  - destruct (q - inject_Z (Qfloor q) ?= 1 # 2); [destruct (Z.even _)|..]; lia.
Qed.

Lemma rne_ge A q : inject_Z A <= q -> (A <= roundTiesToEven q)%Z.
Proof.
  intros H. unfold roundTiesToEven.
  assert (A <= Qfloor q)%Z as HA.
  { rewrite <- (Qfloor_Z A). by apply Qfloor_resp_le. }
  destruct (q - inject_Z (Qfloor q) ?= 1 # 2); [destruct (Z.even _)|..]; lia.
Qed.

Lemma roundAbs_nonneg y : 0 <= y -> 0 <= roundAbs y.
Proof.
  intros Hy. unfold roundAbs.
  apply Qmult_le_0_compat; [|apply Qlt_le_weak, pow2_pos].
  change 0 with (inject_Z 0). rewrite <- Zle_Qle. apply rne_ge.
  change (inject_Z 0) with 0.
  apply Qmult_le_0_compat; [done|apply Qlt_le_weak, pow2_pos].
Qed.

(** Rounding never crosses a double: what is at most a double rounds to at
    most that double. *)
Lemma roundAbs_le y b :
  0 <= y <= b -> representable b -> roundAbs y <= b.
Proof.
  intros [Hy0 Hyb] (m & k & [Hm0 Hm] & Hk & Hb). unfold roundAbs.
  set (e := ulpExponent y).
  destruct (Qlt_le_dec 0 y) as [Hpos|Hz].
  2: { assert (roundTiesToEven (y * pow2 (- e)) <= 0)%Z as Hr.
       { apply rne_le. change (inject_Z 0) with 0.
         assert (y == 0) as -> by lra. lra. }
       apply Qle_trans with 0; [|lra].
       rewrite Zle_Qle in Hr. change (inject_Z 0) with 0 in Hr.
       pose proof (pow2_pos e).
       apply Qle_trans with (0 * pow2 e); [by apply Qmult_le_r|lra]. }
  assert (e <= k)%Z as Hek.
  { destruct (ilog2_spec y Hpos) as [HL _].
    assert (pow2 (ilog2 y) < pow2 (53 + k)) as Hlt.
    { rewrite pow2_add. apply Qle_lt_trans with b; [lra|]. rewrite Hb.
      apply Qmult_lt_r; [apply pow2_pos|].
      rewrite (pow2_Z 53) by lia. rewrite <- Zlt_Qlt. lia. }
    apply pow2_lt_inv in Hlt. subst e. unfold ulpExponent. lia. }
  set (B := (m * 2 ^ (k - e))%Z).
  assert (inject_Z B == b * pow2 (- e)) as HB.
  { subst B. rewrite inject_Z_mult, <- pow2_Z by lia. rewrite Hb.
    rewrite <- Qmult_assoc, <- pow2_add.
    replace (k + - e)%Z with (k - e)%Z by lia. reflexivity. }
  assert (roundTiesToEven (y * pow2 (- e)) <= B)%Z as Hr.
  { apply rne_le. rewrite HB. apply Qmult_le_r; [apply pow2_pos|done]. }
  rewrite <- (pow2_cancel b e), <- HB.
  apply Qmult_le_r; [apply pow2_pos|]. by rewrite <- Zle_Qle.
Qed.

Lemma round_nonneg y : 0 <= y -> 0 <= round y.
Proof.
  intros Hy. unfold round. destruct (Qlt_le_dec y 0); [lra|].
  by apply roundAbs_nonneg.
Qed.

Lemma round_le y b : 0 <= y <= b -> representable b -> round y <= b.
Proof.
  intros Hy Hb. unfold round. destruct (Qlt_le_dec y 0); [lra|].
  by apply roundAbs_le.
Qed.

(** What lies between a double and its opposite rounds between them. *)
Lemma round_within y b :
  - b <= y <= b -> representable b -> - b <= round y <= b.
Proof.
  intros [Hl Hu] Hb. unfold round. destruct (Qlt_le_dec y 0) as [Hneg|Hpos].
  - pose proof (roundAbs_nonneg (- y) ltac:(lra)).
    pose proof (roundAbs_le (- y) b ltac:(lra) Hb). lra.
  - pose proof (roundAbs_nonneg y Hpos).
    pose proof (roundAbs_le y b ltac:(lra) Hb). lra.
Qed.

Lemma ilog2_unique x L : pow2 L <= x < pow2 (L + 1) -> ilog2 x = L.
Proof.
  intros [Hl Hu].
  assert (0 < x) as Hx by (pose proof (pow2_pos L); lra).
  destruct (ilog2_spec x Hx) as [Hl' Hu'].
  assert (pow2 (ilog2 x) < pow2 (L + 1)) as H1 by lra.
  assert (pow2 L < pow2 (ilog2 x + 1)) as H2 by lra.
  apply pow2_lt_inv in H1, H2. lia.
Qed.

(** The largest double below 1 is 1 - 2^-53. *)
Lemma double_below_one r :
  0 <= r < 1 -> round r == r -> r <= 1 - pow2 (-53).
Proof.
  intros [H0 H1] Hr.
  change (pow2 (-53)) with (1 # 9007199254740992).
  destruct (Qlt_le_dec r (1 # 2)) as [Hs|Hh]; [lra|].
  assert (ilog2 r = -1)%Z as HL.
  { apply ilog2_unique. change (pow2 (-1)) with (1 # 2).
    change (pow2 (-1 + 1)) with 1. lra. }
  revert Hr. unfold round. destruct (Qlt_le_dec r 0); [lra|].
  unfold roundAbs, ulpExponent. rewrite HL.
  change (Z.max (-1 - 52) (-1074)) with (-53)%Z.
  change (pow2 (- -53)) with (inject_Z 9007199254740992).
  change (pow2 (-53)) with (1 # 9007199254740992).
  set (n := roundTiesToEven _). intros Hr.
  assert (n < 9007199254740992)%Z as Hn.
  { rewrite Zlt_Qlt. change (inject_Z 9007199254740992) with 9007199254740992. lra. }
  assert (n <= 9007199254740991)%Z as Hn' by lia.
  rewrite Zle_Qle in Hn'.
  change (inject_Z 9007199254740991) with 9007199254740991 in Hn'. lra.
Qed.

(** Below 9000 - 9000 * 2^-53, rounding stays below 9000: the nearest
    doubles there are 2^-39 apart. *)
Lemma round_below_9000 y :
  0 <= y <= 9000 - 9000 * pow2 (-53) -> round y <= 9000 - pow2 (-39).
Proof.
  change (pow2 (-53)) with (1 # 9007199254740992).
  change (pow2 (-39)) with (1 # 549755813888).
  intros [H0 H1].
  destruct (Qlt_le_dec y 8192) as [Hs|Hh].
  - apply Qle_trans with 8192; [|lra].
    apply round_le; [lra|]. exists 8192%Z, 0%Z. split_and!; [lia|lia|lia|reflexivity].
  - assert (ilog2 y = 13)%Z as HL.
    { apply ilog2_unique. change (pow2 13) with 8192.
      change (pow2 (13 + 1)) with 16384. lra. }
    unfold round. destruct (Qlt_le_dec y 0); [lra|].
    unfold roundAbs, ulpExponent. rewrite HL.
    change (Z.max (13 - 52) (-1074)) with (-39)%Z.
    change (pow2 (- -39)) with (inject_Z 549755813888).
    change (pow2 (-39)) with (1 # 549755813888).
    assert (roundTiesToEven (y * inject_Z 549755813888)
            <= 9000 * 549755813888 - 1)%Z as Hn.
    { apply rne_below_half. change (inject_Z 549755813888) with 549755813888.
      change (inject_Z (9000 * 549755813888)) with 4947802324992000. lra. }
    rewrite Zle_Qle in Hn.
    change (inject_Z (9000 * 549755813888 - 1)) with 4947802324991999 in Hn. lra.
Qed.
End DoubleFacts.

(** The operations agree with the standard library's binary64 arithmetic
    (53-bit significands, exponents below 1024) on the draw 9/16, whose
    growth is 0.02, and on a draw whose product with 9000 rounds up to the
    integer 124. *)
Example Double_mul_example :
  Double.ofSpecFloat
    (SFmul 53 1024 (S754_finite false 9 (-4))
       (S754_finite false 7205759403792794 (-54)))
  = Double.mul (9 # 16) (literal (4 # 10)).
Proof. vm_compute. reflexivity. Qed.

Example Double_sub_example :
  Double.ofSpecFloat
    (SFsub 53 1024
       (SFmul 53 1024 (S754_finite false 9 (-4))
          (S754_finite false 7205759403792794 (-54)))
       (S754_finite false 7205759403792794 (-55)))
  = Double.sub (Double.mul (9 # 16) (literal (4 # 10))) (literal (2 # 10)).
Proof. vm_compute. reflexivity. Qed.

Example Double_mul_rounds_up :
  Double.ofSpecFloat
    (SFmul 53 1024 (S754_finite false 124099189731987 (-53))
       (S754_finite false 9000 0))
  = Double.mul (124099189731987 # 9007199254740992) 9000.
Proof. vm_compute. reflexivity. Qed.

Example sampleValue_rounds_up :
  sampleValue (124099189731987 # 9007199254740992) = 1124
  ∧ Math_floor ((124099189731987 # 9007199254740992) * 9000) + 1000 = 1123.
Proof. split; vm_compute; reflexivity. Qed.

Example sampleGrowth_nine_sixteenths :
  sampleGrowth (9 # 16) = parseFloat_hundredths 2
  ∧ toFixed2 ((9 # 16) * (4 # 10) - (2 # 10)) = 3.
Proof. split; vm_compute; reflexivity. Qed.

(** ** The metric generator *)

Section GeneratorProperties.
Variable rand : nat -> Q.

Lemma generateData_cons n rest s :
  generateData rand (n :: rest) s
  = ({| name := n; value := sampleValue (rand s); growth := sampleGrowth (rand (S s)) |}
       :: fst (generateData rand rest (S (S s))),
     snd (generateData rand rest (S (S s)))).
Proof.
  unfold sampleValue, sampleGrowth. cbn [generateData].
  cbv beta iota zeta delta [mbind rand_bind mret rand_ret generateSample Math_random].
  destruct (generateData rand rest (S (S s))). reflexivity.
Qed.

Lemma generateData_names names s :
  map name (fst (generateData rand names s)) = names.
Proof.
  revert s. induction names as [|n rest IH]; intros s; [done|].
  rewrite generateData_cons. cbn [fst map name]. by rewrite IH.
Qed.

Lemma generateData_draws names s :
  snd (generateData rand names s) = (s + 2 * length names)%nat.
Proof.
  revert s. induction names as [|n rest IH]; intros s.
  - cbn. lia.
  - rewrite generateData_cons. cbn [snd length]. rewrite IH. lia.
Qed.

(** Every sample is built from two consecutive draws. *)
Lemma generateData_lookup names s i n :
  names !! i = Some n ->
  fst (generateData rand names s) !! i
  = Some {| name := n;
            value := sampleValue (rand (s + 2 * i)%nat);
            growth := sampleGrowth (rand (S (s + 2 * i))) |}.
Proof.
  revert s i. induction names as [|m rest IH]; intros s i; [done|].
  rewrite generateData_cons. cbn [fst].
  destruct i as [|i].
  - intros [= ->]. by rewrite Nat.add_0_r.
  - intros H. change ((?x :: ?l) !! S i) with (l !! i).
    rewrite (IH (S (S s)) i H).
    replace (S (S s) + 2 * i)%nat with (s + 2 * S i)%nat by lia. done.
Qed.
End GeneratorProperties.

Section GeneratorRanges.
Import Double.
Local Open Scope Q_scope.

Lemma literal_02 : literal (2 # 10) = 7205759403792794 # 36028797018963968.
Proof. vm_compute. reflexivity. Qed.

Lemma literal_04 : literal (4 # 10) = 7205759403792794 # 18014398509481984.
Proof. vm_compute. reflexivity. Qed.

Lemma representable_02 : representable (literal (2 # 10)).
Proof.
  exists 7205759403792794%Z, (-55)%Z. rewrite literal_02.
  split_and!; [lia|lia|lia|reflexivity].
Qed.

Lemma representable_04 : representable (literal (4 # 10)).
Proof.
  exists 7205759403792794%Z, (-54)%Z. rewrite literal_04.
  split_and!; [lia|lia|lia|reflexivity].
Qed.

Lemma representable_9000 : representable 9000.
Proof. exists 9000%Z, 0%Z. split_and!; [lia|lia|lia|reflexivity]. Qed.

(** The product with 9000 cannot round above 9000. *)
Lemma value_range (r : Q) :
  0 <= r -> r < 1 -> (1000 <= sampleValue r <= 10000)%Z.
Proof.
  intros H0 H1. unfold sampleValue, Math_floor, mul.
  assert (0 <= round (r * 9000) <= 9000) as [Hl Hu].
  { split; [apply round_nonneg; lra|].
    apply round_le; [lra|apply representable_9000]. }
  assert (0 <= Qfloor (round (r * 9000)))%Z.
  { change 0%Z with (Qfloor 0). by apply Qfloor_resp_le. }
  assert (Qfloor (round (r * 9000)) <= 9000)%Z.
  { change 9000%Z with (Qfloor 9000). by apply Qfloor_resp_le. }
  lia.
Qed.

(** A draw that is a double below 1 is at most 1 - 2^-53, and its product
    with 9000 rounds to a double below 9000. *)
Lemma value_range_strict (r : Q) :
  isDouble r -> 0 <= r -> r < 1 -> (1000 <= sampleValue r <= 9999)%Z.
Proof.
  intros Hd H0 H1. pose proof (value_range r H0 H1) as [Hl _].
  split; [exact Hl|]. unfold sampleValue, Math_floor, mul.
  pose proof (double_below_one r (conj H0 H1) Hd) as Hr.
  assert (round (r * 9000) <= 9000 - pow2 (-39)) as Hy.
  { apply round_below_9000. split; [lra|].
    revert Hr. change (pow2 (-53)) with (1 # 9007199254740992). lra. }
  assert (Qfloor (round (r * 9000)) < 9000)%Z.
  { rewrite Zlt_Qlt. eapply Qle_lt_trans; [apply Qfloor_le|].
    revert Hy. change (pow2 (-39)) with (1 # 549755813888).
    change (inject_Z 9000) with 9000. lra. }
  lia.
Qed.

Lemma toFixed2_range (x : Q) :
  - literal (2 # 10) <= x -> x <= literal (2 # 10) -> (-20 <= toFixed2 x <= 20)%Z.
Proof.
  rewrite literal_02.
  intros Hlo Hhi. unfold toFixed2. destruct (Qlt_le_dec x 0) as [Hneg|Hpos].
  - assert (0 <= Qfloor (- x * 100 + (1 # 2)))%Z.
    { change 0%Z with (Qfloor 0). apply Qfloor_resp_le. lra. }
    assert (Qfloor (- x * 100 + (1 # 2)) < 21)%Z.
    { rewrite Zlt_Qlt. eapply Qle_lt_trans; [apply Qfloor_le|].
      change (inject_Z 21) with (21 # 1)%Q. lra. }
    lia.
  - assert (0 <= Qfloor (x * 100 + (1 # 2)))%Z.
    { change 0%Z with (Qfloor 0). apply Qfloor_resp_le. lra. }
    assert (Qfloor (x * 100 + (1 # 2)) < 21)%Z.
    { rewrite Zlt_Qlt. eapply Qle_lt_trans; [apply Qfloor_le|].
      change (inject_Z 21) with (21 # 1)%Q. lra. }
    lia.
Qed.

(** The difference computed before [toFixed] stays between the doubles
    -0.2 and 0.2: 0.4 is the double of 0.2 doubled, and rounding never
    crosses a double. *)
Lemma growth_raw_range (r : Q) :
  0 <= r -> r < 1 ->
  let x := sub (mul r (literal (4 # 10))) (literal (2 # 10)) in
  - literal (2 # 10) <= x ∧ x <= literal (2 # 10).
Proof.
  intros H0 H1 x. subst x. unfold sub, mul.
  assert (0 <= round (r * literal (4 # 10)) <= literal (4 # 10)) as [Hl Hu].
  { split.
    - apply round_nonneg. rewrite literal_04. nra.
    - apply round_le; [|apply representable_04]. rewrite literal_04. nra. }
  apply round_within; [|apply representable_02].
  revert Hl Hu. rewrite literal_04, literal_02. lra.
Qed.

Lemma parseFloat_range (n : Z) :
  (-20 <= n <= 20)%Z ->
  - literal (2 # 10) <= parseFloat_hundredths n <= literal (2 # 10).
Proof.
  intros Hn. unfold parseFloat_hundredths.
  apply round_within; [|apply representable_02].
  rewrite literal_02. unfold Qle, Qopp. cbn [Qnum Qden]. lia.
Qed.

Lemma growth_range (r : Q) :
  0 <= r -> r < 1 ->
  ∃ n, (-20 <= n <= 20)%Z ∧ sampleGrowth r = parseFloat_hundredths n
       ∧ - literal (2 # 10) <= sampleGrowth r <= literal (2 # 10).
Proof.
  intros H0 H1. destruct (growth_raw_range r H0 H1) as [Hl Hu].
  pose proof (toFixed2_range _ Hl Hu) as Hn.
  eexists. split; [exact Hn|]. split; [reflexivity|].
  by apply parseFloat_range.
Qed.
End GeneratorRanges.

(** C6.  For every list of region names, and every random source drawing
    doubles from [0,1), [generateData] returns one sample per name, carrying
    the names of the input in the order of the input, and every sample has
    its value within [1000, 10000] and its growth within [-0.2, 0.2], the
    bounds being the doubles these literals denote. *)
Theorem C6_generateData_contract
    (rand : nat -> Q) (regionNames : list string) (s : nat) :
  (forall k, Double.isDouble (rand k) ∧ (0 <= rand k)%Q ∧ (rand k < 1)%Q) ->
  let data := fst (generateData rand regionNames s) in
  length data = length regionNames
  ∧ map name data = regionNames
  ∧ (forall i n, regionNames !! i = Some n ->
       ∃ d, data !! i = Some d ∧ name d = n)
  ∧ Forall (fun d => 1000 <= value d <= 10000
                     ∧ (- literal (2 # 10) <= growth d)%Q
                     ∧ (growth d <= literal (2 # 10))%Q) data.
Proof.
  intros Hrand data. subst data.
  assert (length (fst (generateData rand regionNames s)) = length regionNames) as Hlen.
  { rewrite <- (generateData_names rand regionNames s) at 2. by rewrite length_map. }
  split; [done|]. split; [apply generateData_names|]. split.
  - intros i n Hn. eexists. split; [by apply generateData_lookup|done].
  - apply Forall_lookup. intros i d Hd.
    assert (i < length regionNames)%nat as Hi.
    { rewrite <- Hlen. by eapply lookup_lt_Some. }
    destruct (lookup_lt_is_Some_2 _ _ Hi) as [n Hn].
    rewrite (generateData_lookup rand _ s _ _ Hn) in Hd.
    apply (inj Some) in Hd. subst d. cbn [value growth].
    destruct (Hrand (s + 2 * i)%nat) as (_ & Ha & Hb).
    destruct (Hrand (S (s + 2 * i))) as (_ & Hc & Hd).
    pose proof (value_range _ Ha Hb) as Hv.
    destruct (growth_range _ Hc Hd) as (m & _ & _ & Hg).
    split; [lia|exact Hg].
Qed.

Lemma C6_generateData_witness :
  (forall k : nat, Double.isDouble (1 # 2) ∧ (0 <= 1 # 2)%Q ∧ (1 # 2 < 1)%Q)
  ∧ map name (fst (generateData (fun _ => 1 # 2) ["北京市"; "广东省"] 0%nat))
    = ["北京市"; "广东省"].
Proof.
  assert (forall k : nat, Double.isDouble (1 # 2) ∧ (0 <= 1 # 2)%Q ∧ (1 # 2 < 1)%Q)
    as H by (intros k; split_and!; [vm_compute; reflexivity | discriminate | reflexivity]).
  split; [exact H|].
  exact (proj1 (proj2 (C6_generateData_contract
                         (fun _ => 1 # 2) ["北京市"; "广东省"] 0%nat H))).
Defined.

(** ** Selecting a date *)

Lemma setSelectedDate_same d v : selectedDate v = d -> setSelectedDate d v = v.
Proof. intros <-. by destruct v. Qed.

Lemma withView_id w : withView (fun v => v) w = w.
Proof. by destruct w. Qed.

(** C9.  Selecting a date is idempotent: a second selection of the same date
    leaves the whole world as the first one left it, so it redraws nothing,
    regenerates no metrics and draws no random numbers; on a committed world
    whose selected date it already is, the selection changes nothing. *)
Theorem C9_date_selection_idempotent (rand : nat -> Q) (date : string) (w : World) :
  let w1 := step rand (SelectDate date) w in
  let w2 := step rand (SelectDate date) w1 in
  w2 = w1
  ∧ renders w2 = renders w1
  ∧ randomCalls w2 = randomCalls w1
  ∧ chartInstance w2 = chartInstance w1
  ∧ selectedDate (view w1) = date
  ∧ (selectedDate (view w) = date ->
     effectDeps w = Some (currentDeps (view w)) ->
     w1 = w).
Proof.
  intros w1 w2.
  assert (forall w0, selectedDate (view w0) = date ->
            effectDeps w0 = Some (currentDeps (view w0)) ->
            step rand (SelectDate date) w0 = w0) as Hfix.
  { intros w0 Hd He. unfold step. cbn.
    assert (withView (setSelectedDate date) w0 = w0) as ->.
    { destruct w0 as [v ? ? ? ? ? ? ? ? ? ?]. cbn in *.
      unfold withView. cbn. by rewrite setSelectedDate_same. }
    by apply commit_idle. }
  assert (selectedDate (view w1) = date) as Hd1.
  { subst w1. by rewrite step_view. }
  assert (w2 = w1) as Heq.
  { subst w2. apply Hfix; [done|]. subst w1. apply commit_effectDeps. }
  rewrite Heq. repeat split; try done. apply Hfix.
Qed.

Lemma C9_date_selection_witness :
  selectedDate (view sampleReady) = "2026-11-01"
  ∧ effectDeps sampleReady = Some (currentDeps (view sampleReady))
  ∧ step sampleRand (SelectDate "2026-11-01") sampleReady = sampleReady.
Proof.
  assert (selectedDate (view sampleReady) = "2026-11-01") as H1
    by (vm_compute; reflexivity).
  assert (effectDeps sampleReady = Some (currentDeps (view sampleReady))) as H2
    by (vm_compute; reflexivity).
  split; [exact H1|]. split; [exact H2|].
  exact (proj2 (proj2 (proj2 (proj2 (proj2
           (C9_date_selection_idempotent sampleRand "2026-11-01" sampleReady)))))
           H1 H2).
Defined.

(** ** The date window *)

Example toISOString_epoch :
  JsDate.toISOString 0 = "1970-01-01T00:00:00.000Z".
Proof. reflexivity. Qed.

Example toISOString_leap_day :
  JsDate.toISOString 1709208000000 = "2024-02-29T12:00:00.000Z".
Proof. vm_compute. reflexivity. Qed.

Example toISOString_before_epoch :
  JsDate.toISOString (-1000) = "1969-12-31T23:59:59.000Z".
Proof. vm_compute. reflexivity. Qed.

Example toISOString_year_end :
  JsDate.toISOString 978307199000 = "2000-12-31T23:59:59.000Z".
Proof. vm_compute. reflexivity. Qed.

Section Window.
Variable tz : JsDate.TimeZone.
Variable clock : nat -> Z.

Lemma getLast7Days_entries :
  getLast7Days tz clock
  = [dayEntry tz (clock 0%nat) 6; dayEntry tz (clock 1%nat) 5;
     dayEntry tz (clock 2%nat) 4; dayEntry tz (clock 3%nat) 3;
     dayEntry tz (clock 4%nat) 2; dayEntry tz (clock 5%nat) 1;
     dayEntry tz (clock 6%nat) 0].
Proof. reflexivity. Qed.

(** The window has seven entries, whatever the clock and the zone. *)
Lemma getLast7Days_length : length (getLast7Days tz clock) = 7%nat.
Proof. by rewrite getLast7Days_entries. Qed.
End Window.

Lemma MonthFromTime_range t : 0 <= JsDate.MonthFromTime t <= 11.
Proof.
  unfold JsDate.MonthFromTime.
  repeat (match goal with |- context [if ?b then _ else _] => destruct b end); lia.
Qed.

(** Moving the day of the month back by [i] moves the local time back by
    [i] days and keeps the local time of day. *)
Lemma setDate_getDate tz t i :
  JsDate.setDate tz t (JsDate.getDate tz t - i)
  = JsDate.UTC tz (JsDate.LocalTime tz t - i * JsDate.msPerDay).
Proof.
  unfold JsDate.setDate, JsDate.getDate. set (tl := JsDate.LocalTime tz t).
  f_equal. unfold JsDate.MakeDate, JsDate.MakeDay.
  pose proof (MonthFromTime_range tl) as Hm.
  rewrite (Z.div_small (JsDate.MonthFromTime tl) 12) by lia.
  rewrite (Z.mod_small (JsDate.MonthFromTime tl) 12) by lia.
  rewrite Z.add_0_r.
  unfold JsDate.DateFromTime, JsDate.DayWithinYear, JsDate.InLeapYear.
  unfold JsDate.Day, JsDate.TimeWithinDay.
  pose proof (Z.div_mod tl JsDate.msPerDay) as Hdm.
  unfold JsDate.msPerDay in *. lia.
Qed.

Lemma Day_minus_days t i :
  JsDate.Day (t - i * JsDate.msPerDay) = JsDate.Day t - i.
Proof.
  unfold JsDate.Day, JsDate.msPerDay.
  replace (t - i * 86400000) with (t + (- i) * 86400000) by lia.
  rewrite Z.div_add by lia. lia.
Qed.

Lemma dayEntry_fixedZone minutes now i :
  dayEntry (JsDate.fixedZone minutes) now i
  = JsDate.splitT0 (JsDate.toISOString (now - i * JsDate.msPerDay)).
Proof.
  unfold dayEntry. cbv zeta. rewrite setDate_getDate.
  unfold JsDate.UTC, JsDate.LocalTime, JsDate.fixedZone.
  cbn [JsDate.tzaOfUTC JsDate.tzaOfLocal].
  do 2 f_equal. lia.
Qed.

(** In a zone without daylight saving and with the clock read at one
    instant, the entries are the UTC calendar dates of the instants 6, 5,
    ..., 0 days before now, which fall on seven consecutive UTC days. *)
Lemma getLast7Days_fixedZone minutes now :
  getLast7Days (JsDate.fixedZone minutes) (fun _ => now)
  = map (fun i => JsDate.splitT0 (JsDate.toISOString (now - i * JsDate.msPerDay)))
        [6; 5; 4; 3; 2; 1; 0]
  ∧ (forall i, JsDate.Day (now - i * JsDate.msPerDay) = JsDate.Day now - i).
Proof.
  split; [|intros i; apply Day_minus_days].
  rewrite getLast7Days_entries. cbn [map].
  by rewrite !dayEntry_fixedZone.
Qed.


(** The window is state without a setter: no transition changes it. *)
Lemma loadMap_dates adcode mapName w :
  dates (view (fst (loadMap adcode mapName w))) = dates (view w).
Proof.
  destruct (mapCache w !! mapName) as [g|] eqn:H.
  - by rewrite (loadMap_hit _ _ _ _ H).
  - by rewrite (loadMap_miss _ _ _ H).
Qed.

Lemma handle_dates e w : dates (view (fst (handle e w))) = dates (view w).
Proof.
  destruct e as [ct n| |d|i r|i r]; cbn.
  - unfold onChartClick. destruct (_ && _); [|done].
    destruct (record_get _ _) as [c|]; [|done].
    destruct (ToBoolean c); [|done]. by rewrite loadMap_dates.
  - apply loadMap_dates.
  - done.
  - unfold resumeFetch. destruct (pending w !! i) as [[a m|a m]|]; try done.
    by destruct r as [reason|[|]].
  - unfold resumeJson. destruct (pending w !! i) as [[a m|a m]|]; try done.
    by destruct r as [reason|g].
Qed.

Lemma dates_never_refreshed rand es w :
  dates (view (run rand es w)) = dates (view w).
Proof.
  revert w. induction es as [|e es IH]; intros w; [done|].
  cbn [run]. by rewrite IH, step_view, handle_dates.
Qed.

(** C8.  The window always has seven entries and no transition replaces
    it, but its entries are UTC dates of instants found by local-calendar
    arithmetic, so it need not end at the user's today.  In China Standard
    Time at 03:00 on 2 November 2026 the local day of the month is 2 and the
    local date is 2026-11-02, yet the window runs from 2026-10-26 to
    2026-11-01.  In US Eastern time at 19:30 on 9 March 2026, the day after
    the clocks went forward, the window holds 2026-03-08 twice and starts at
    2026-03-04 although the local date six days back is 2026-03-03. *)
Theorem C8_window_misses_local_today :
  JsDate.getDate chinaStandardTime 1793559600000 = 2
  ∧ localISODate chinaStandardTime 1793559600000 = "2026-11-02"
  ∧ getLast7Days chinaStandardTime (fun _ => 1793559600000)
    = ["2026-10-26"; "2026-10-27"; "2026-10-28"; "2026-10-29";
       "2026-10-30"; "2026-10-31"; "2026-11-01"]
  ∧ localISODate usEastern2026 1773099000000 = "2026-03-09"
  ∧ getLast7Days usEastern2026 (fun _ => 1773099000000)
    = ["2026-03-04"; "2026-03-05"; "2026-03-06"; "2026-03-07";
       "2026-03-08"; "2026-03-08"; "2026-03-09"].
Proof. vm_compute. repeat split. Qed.


(** * Further properties of the code *)

(** ** Date arithmetic of the window *)

Lemma TimeWithinDay_minus_days t i :
  JsDate.TimeWithinDay (t - i * JsDate.msPerDay) = JsDate.TimeWithinDay t.
Proof.
  unfold JsDate.TimeWithinDay, JsDate.msPerDay.
  replace (t - i * 86400000) with (t + (- i) * 86400000) by lia.
  apply Z.mod_add. lia.
Qed.

(** X1.  In a time zone without daylight saving,
    [d.setDate(d.getDate() - i)] moves the Date back by exactly [i] days:
    the new time value is [i] days earlier, its local calendar day is [i]
    days earlier and its local time of day is the same, also across the
    start of a month or of a year.  With daylight saving this fails: in US
    Eastern time, from 02:30 on 9 March 2026 the step of one day back lands
    on 03:30 of 8 March, 23 hours earlier. *)
Theorem X1_setDate_steps_back_whole_days (minutes t i : Z) :
  let tz := JsDate.fixedZone minutes in
  let t' := JsDate.setDate tz t (JsDate.getDate tz t - i) in
  (t' = t - i * JsDate.msPerDay
   ∧ JsDate.Day (JsDate.LocalTime tz t') = JsDate.Day (JsDate.LocalTime tz t) - i
   ∧ JsDate.TimeWithinDay (JsDate.LocalTime tz t')
     = JsDate.TimeWithinDay (JsDate.LocalTime tz t))
  ∧ (let t0 := 1773037800000 in
     let t1 := JsDate.setDate usEastern2026 t0 (JsDate.getDate usEastern2026 t0 - 1) in
     localISODate usEastern2026 t0 = "2026-03-09"
     ∧ JsDate.TimeWithinDay (JsDate.LocalTime usEastern2026 t0) = 9000000
     ∧ localISODate usEastern2026 t1 = "2026-03-08"
     ∧ JsDate.TimeWithinDay (JsDate.LocalTime usEastern2026 t1) = 12600000
     ∧ t1 = t0 - 23 * JsDate.msPerHour).
Proof.
  cbv zeta. split.
  - assert (JsDate.setDate (JsDate.fixedZone minutes) t
              (JsDate.getDate (JsDate.fixedZone minutes) t - i)
            = t - i * JsDate.msPerDay) as ->.
    { rewrite setDate_getDate.
      unfold JsDate.UTC, JsDate.LocalTime, JsDate.fixedZone.
      cbn [JsDate.tzaOfUTC JsDate.tzaOfLocal]. lia. }
    split; [done|].
    unfold JsDate.LocalTime, JsDate.fixedZone. cbn [JsDate.tzaOfUTC].
    replace (t - i * JsDate.msPerDay + minutes * JsDate.msPerMinute)
      with (t + minutes * JsDate.msPerMinute - i * JsDate.msPerDay) by lia.
    split; [apply Day_minus_days | apply TimeWithinDay_minus_days].
  - split_and!; vm_compute; reflexivity.
Qed.

(** X2.  In a zone without daylight saving the window does not depend on
    the offset of the zone: its [k]-th entry is the UTC date of the instant
    [6 - k] days before the [k]-th clock reading, so the last entry is the
    UTC date of the last reading. *)
Theorem X2_window_in_fixed_zone (minutes : Z) (clock : nat -> Z) :
  let iso t := JsDate.splitT0 (JsDate.toISOString t) in
  getLast7Days (JsDate.fixedZone minutes) clock
  = [iso (clock 0%nat - 6 * JsDate.msPerDay); iso (clock 1%nat - 5 * JsDate.msPerDay);
     iso (clock 2%nat - 4 * JsDate.msPerDay); iso (clock 3%nat - 3 * JsDate.msPerDay);
     iso (clock 4%nat - 2 * JsDate.msPerDay); iso (clock 5%nat - 1 * JsDate.msPerDay);
     iso (clock 6%nat - 0 * JsDate.msPerDay)]
  ∧ getLast7Days (JsDate.fixedZone minutes) clock
    = getLast7Days (JsDate.fixedZone 0) clock
  ∧ (forall k i, JsDate.Day (clock k - i * JsDate.msPerDay) = JsDate.Day (clock k) - i).
Proof.
  cbv zeta. split; [|split].
  - rewrite getLast7Days_entries. by rewrite !dayEntry_fixedZone.
  - rewrite !getLast7Days_entries. by rewrite !dayEntry_fixedZone.
  - intros k i. apply Day_minus_days.
Qed.

Lemma mount_dates rand w : dates (view (mount rand w)) = dates (view w).
Proof.
  unfold mount. cbv zeta. rewrite commit_view.
  pose proof (loadMap_dates 100000 "china" w) as H. revert H.
  generalize (fst (loadMap 100000 "china" w)). intros w1 H.
  destruct (chartInstance w1); exact H.
Qed.

Lemma reachable_run rand tz clock w :
  reachable rand tz clock w -> ∃ es, w = run rand es (mounted rand tz clock).
Proof.
  induction 1 as [|e w Hw [es ->]].
  - by exists [].
  - exists (es ++ [e]). by rewrite run_snoc.
Qed.

(** X3.  The window shown by the timeline is fixed for the session: in
    every world reachable from start-up it is the list computed by the
    first call of [getLast7Days], and it has seven entries. *)
Theorem X3_window_fixed_for_session
    (rand : nat -> Q) (tz : JsDate.TimeZone) (clock : nat -> Z) (w : World) :
  reachable rand tz clock w ->
  dates (view w) = getLast7Days tz clock ∧ length (dates (view w)) = 7%nat.
Proof.
  intros [es ->]%reachable_run.
  rewrite dates_never_refreshed. unfold mounted. rewrite mount_dates.
  split; [done|]. apply getLast7Days_length.
Qed.

Lemma X3_window_fixed_witness :
  reachable sampleRand chinaStandardTime sampleClock sampleRacing
  ∧ dates (view sampleRacing) = getLast7Days chinaStandardTime sampleClock
  ∧ length (dates (view sampleRacing)) = 7%nat.
Proof.
  assert (reachable sampleRand chinaStandardTime sampleClock sampleRacing) as H
    by (do 6 apply reachable_step; apply reachable_mounted).
  split; [exact H|].
  exact (X3_window_fixed_for_session _ _ _ _ H).
Defined.

(** X4.  The date selected at start-up comes from a second call of
    [getLast7Days]; when the last clock reading of that call equals the
    last reading of the first call, the selected date is the last entry of
    the window, hence one of its entries. *)
Theorem X4_initial_selection_is_last_entry
    (tz : JsDate.TimeZone) (clock : nat -> Z) :
  clock 13%nat = clock 6%nat ->
  selectedDate (initialView tz clock) = List.last (dates (initialView tz clock)) ""
  ∧ selectedDate (initialView tz clock) ∈ dates (initialView tz clock).
Proof.
  intros H. unfold initialView. cbn [selectedDate dates].
  rewrite !getLast7Days_entries. cbn [nth List.last Nat.add]. rewrite H.
  split; [done|]. do 6 apply list_elem_of_further. apply list_elem_of_here.
Qed.

Lemma X4_initial_selection_witness :
  sampleClock 13%nat = sampleClock 6%nat
  ∧ selectedDate (initialView chinaStandardTime sampleClock)
    = List.last (dates (initialView chinaStandardTime sampleClock)) "".
Proof.
  assert (sampleClock 13%nat = sampleClock 6%nat) as H by reflexivity.
  split; [exact H|].
  exact (proj1 (X4_initial_selection_is_last_entry chinaStandardTime sampleClock H)).
Defined.

(** ** The registry and the click handler *)

Lemma registry_entries :
  Forall (fun p : string * Z =>
            record_get p.1 PROVINCE_ADCODES = Some (JsNumber p.2)
            ∧ Boolean p.1 = true
            ∧ ToBoolean p.2 = true
            ∧ 110000 <= p.2 <= 820000
            ∧ p.2 mod 10000 = 0)
         PROVINCE_ADCODES.
Proof.
  apply (bool_decide_unpack _). vm_compute. exact I.
Qed.

(** No two properties of the registry, own or inherited, have the same
    value. *)
Lemma property_values_distinct :
  NoDup (map (fun p : string * Z => JsNumber p.2) PROVINCE_ADCODES
         ++ map snd Object_prototype).
Proof. apply (bool_decide_unpack _). vm_compute. exact I. Qed.

Lemma getOwnProperty_None {A : Type} key (record : list (string * A)) :
  getOwnProperty key record = None ↔ key ∉ map fst record.
Proof.
  induction record as [|[k v] rest IH]; cbn.
  - split; [intros _; apply not_elem_of_nil | done].
  - destruct (String.eqb k key) eqn:Hk.
    + apply String.eqb_eq in Hk as ->. split; [done|].
      intros H. exfalso. apply H, list_elem_of_here.
    + apply String.eqb_neq in Hk. rewrite IH, not_elem_of_cons.
      split; [by intros ?; split; [congruence|] | by intros [_ ?]].
Qed.

(** A property read on the registry gives the code of an own entry, or a
    member of [Object.prototype] under a name that is no own entry. *)
Lemma record_get_cases key v :
  record_get key PROVINCE_ADCODES = Some v ->
  (∃ n : Z, v = JsNumber n ∧ (key, n) ∈ PROVINCE_ADCODES)
  ∨ ((key ∉ INITIAL_PROVINCES) ∧ (key, v) ∈ Object_prototype).
Proof.
  unfold record_get.
  destruct (getOwnProperty key PROVINCE_ADCODES) as [n|] eqn:Hown.
  - intros [= <-]. left. exists n. split; [done|]. by apply getOwnProperty_elem.
  - intros H. right. split; [by apply getOwnProperty_None|].
    by apply getOwnProperty_elem.
Qed.

(** The value of a property of the registry is at one place of the list of
    all its property values. *)
Lemma record_get_position key v :
  record_get key PROVINCE_ADCODES = Some v ->
  ∃ i, (map (fun p : string * Z => (p.1, JsNumber p.2)) PROVINCE_ADCODES
        ++ Object_prototype) !! i = Some (key, v).
Proof.
  intros [(n & -> & Hin)|[_ Hin]]%record_get_cases; apply list_elem_of_lookup.
  - apply elem_of_app. left.
    apply list_elem_of_fmap. by exists (key, n).
  - apply elem_of_app. by right.
Qed.

Lemma record_get_None key :
  record_get key PROVINCE_ADCODES = None
  ↔ (key ∉ INITIAL_PROVINCES) ∧ (key ∉ map fst Object_prototype).
Proof.
  unfold record_get.
  destruct (getOwnProperty key PROVINCE_ADCODES) as [n|] eqn:Hown.
  - split; [done|]. intros [H _]. apply getOwnProperty_None in H. congruence.
  - apply getOwnProperty_None in Hown. rewrite getOwnProperty_None. tauto.
Qed.

(** X5.  Every name of [INITIAL_PROVINCES] can be drilled into: a click on
    it in the map series resolves to the registry's code for that name, a
    multiple of 10000 between 110000 and 820000 and hence truthy, and the
    handler logs the entry and calls [loadMap] with that code and name. *)
Theorem X5_registered_click_starts_load (name : string) (w : World) :
  name ∈ INITIAL_PROVINCES ->
  ∃ adcode : Z,
    record_get name PROVINCE_ADCODES = Some (JsNumber adcode)
    ∧ 110000 <= adcode <= 820000
    ∧ adcode mod 10000 = 0
    ∧ handle (Click "series" name) w
      = loadMap adcode name
          (console_log ("Entering Province: " +:+ name +:+ " (Adcode: "
                          +:+ pretty adcode +:+ ")") w).
Proof.
  intros Hin.
  destruct (getOwnProperty name PROVINCE_ADCODES) as [adcode|] eqn:Hown.
  2: { by apply getOwnProperty_None in Hown. }
  pose proof registry_entries as Hall. rewrite Forall_forall in Hall.
  destruct (Hall _ (getOwnProperty_elem _ _ _ Hown)) as (Hget & Hb & Ht & Hr & Hm).
  cbn [fst snd] in *.
  exists adcode. split_and!; [done|lia|lia|done|].
  cbn [handle]. unfold onChartClick. rewrite Hb, Hget, Ht.
  by rewrite String.eqb_refl.
Qed.

Lemma X5_registered_click_witness :
  "广东省" ∈ INITIAL_PROVINCES
  ∧ ∃ adcode : Z,
      record_get "广东省" PROVINCE_ADCODES = Some (JsNumber adcode)
      ∧ 110000 <= adcode <= 820000
      ∧ adcode mod 10000 = 0
      ∧ handle (Click "series" "广东省") sampleReady
        = loadMap adcode "广东省"
            (console_log ("Entering Province: " +:+ "广东省" +:+ " (Adcode: "
                            +:+ pretty adcode +:+ ")") sampleReady).
Proof.
  assert ("广东省" ∈ INITIAL_PROVINCES) as H.
  { apply (bool_decide_unpack _). vm_compute. exact I. }
  split; [exact H|].
  exact (X5_registered_click_starts_load "广东省" sampleReady H).
Defined.

(** X6.  A click that is not on the map series, or that carries no name,
    does nothing at all: the world is returned as it is, without even a
    console line, and the transition is idle. *)
Theorem X6_foreign_click_ignored (componentType name : string) (w : World) :
  componentType ≠ "series" ∨ name = "" ->
  handle (Click componentType name) w = (w, Idle).
Proof.
  intros H. cbn [handle]. unfold onChartClick.
  destruct H as [H| ->].
  - apply String.eqb_neq in H. by rewrite H.
  - cbn [Boolean]. by rewrite andb_false_r.
Qed.

Lemma X6_foreign_click_witness :
  ("geo" ≠ "series" ∨ "广东省" = "")
  ∧ handle (Click "geo" "广东省") sampleReady = (sampleReady, Idle).
Proof.
  assert ("geo" ≠ "series" ∨ "广东省" = "") as H by (left; discriminate).
  split; [exact H|].
  exact (X6_foreign_click_ignored "geo" "广东省" sampleReady H).
Defined.

Lemma string_length_app s t :
  String.length (s +:+ t) = (String.length s + String.length t)%nat.
Proof. induction s as [|c s IH]; simpl; [done|]. by f_equal. Qed.

Lemma string_app_inv_tail s1 s2 t : s1 +:+ t = s2 +:+ t -> s1 = s2.
Proof.
  revert s2. induction s1 as [|c s1 IH]; intros [|c2 s2] H.
  - done.
  - apply (f_equal String.length) in H.
    rewrite !string_length_app in H. simpl in H. lia.
  - apply (f_equal String.length) in H.
    rewrite !string_length_app in H. simpl in H. lia.
  - simpl in H. injection H as -> H. f_equal. by apply IH.
Qed.

Lemma pretty_N_char_digit (x : N) : isDigit (pretty_N_char x).
Proof.
  unfold isDigit.
  destruct x as [|p]; [vm_compute; lia|].
  do 4 (try destruct p as [p|p|]); vm_compute; lia.
Qed.

Lemma pretty_N_go_head (x : N) (s : string) :
  (0 < x)%N -> ∃ c, String_head (pretty_N_go x s) = Some c ∧ isDigit c.
Proof.
  revert s. induction (N.lt_wf_0 x) as [x _ IH]. intros s Hx.
  rewrite pretty_N_go_step by done.
  destruct (decide (x `div` 10 = 0)%N) as [->|Hd].
  - rewrite pretty_N_go_0. eexists. split; [done|]. apply pretty_N_char_digit.
  - apply IH; [by apply N.div_lt | by apply N.neq_0_lt_0].
Qed.

(** The decimal digits of an integer start with a digit or a minus sign. *)
Lemma pretty_Z_head (n : Z) :
  ∃ c, String_head (pretty n) = Some c ∧ (isDigit c ∨ c = "-"%char).
Proof.
  destruct n as [|p|p].
  - exists "0"%char. split; [done|]. left. unfold isDigit. vm_compute. lia.
  - destruct (pretty_N_go_head (N.pos p) "" ltac:(lia)) as (c & Hc & Hd).
    exists c. split; [|by left]. exact Hc.
  - exists "-"%char. split; [done|]. by right.
Qed.

Lemma pretty_Z_not_head (n : Z) (c : ascii) (rest : string) :
  ¬ isDigit c -> c ≠ "-"%char -> pretty n ≠ String c rest.
Proof.
  intros Hd Hm H. destruct (pretty_Z_head n) as (c' & Hc & Hc').
  rewrite H in Hc. cbn in Hc. injection Hc as <-. tauto.
Qed.

#[local] Instance ToString_inj : Inj (=) (=) ToString.
Proof.
  assert (forall (n : Z) f, pretty n ≠ ToString (JsFunction f)) as Hf.
  { intros n f. apply pretty_Z_not_head; [unfold isDigit; vm_compute; lia|done]. }
  assert (forall n : Z, pretty n ≠ ToString JsObject) as Ho.
  { intros n. apply pretty_Z_not_head; [unfold isDigit; vm_compute; lia|done]. }
  intros [n1|f1|] [n2|f2|] H; try done.
  - f_equal. by apply (inj pretty).
  - by destruct (Hf n1 f2).
  - by destruct (Ho n1).
  - by destruct (Hf n2 f1).
  - cbn [ToString] in H.
    apply (inj (String.app "function ")) in H.
    apply string_app_inv_tail in H. by subst.
  - by destruct (Ho n2).
Qed.

Lemma mapUrl_inj a1 a2 : mapUrl a1 = mapUrl a2 -> a1 = a2.
Proof.
  unfold mapUrl. intros H.
  apply (inj (String.app MAP_BASE_URL)) in H.
  apply (inj (String.app "/")) in H.
  apply string_app_inv_tail in H. by apply (inj ToString) in H.
Qed.

(** X7.  The boundary files requested for different maps are different:
    two registry names fetched from the same URL are the same name, and no
    province is fetched from the URL of the national map. *)
Theorem X7_distinct_maps_distinct_urls (n1 n2 : string) (a1 a2 : JsValue) :
  record_get n1 PROVINCE_ADCODES = Some a1 ->
  record_get n2 PROVINCE_ADCODES = Some a2 ->
  (mapUrl a1 = mapUrl a2 -> n1 = n2) ∧ mapUrl a1 ≠ mapUrl 100000.
Proof.
  intros H1 H2. split.
  - intros ->%mapUrl_inj.
    destruct (record_get_position _ _ H1) as [i Hi].
    destruct (record_get_position _ _ H2) as [j Hj].
    assert (i = j) as ->.
    { pose proof property_values_distinct as Hnd.
      rewrite <- (map_map (fun p : string * Z => (p.1, JsNumber p.2)) snd) in Hnd.
      rewrite <- map_app in Hnd.
      apply (NoDup_lookup _ i j a2 Hnd);
        rewrite list_lookup_fmap; [by rewrite Hi | by rewrite Hj]. }
    congruence.
  - intros Heq%mapUrl_inj.
    apply record_get_cases in H1 as [(n & -> & Hin)|[_ Hin]].
    + pose proof registry_entries as Hall. rewrite Forall_forall in Hall.
      destruct (Hall _ Hin) as (_ & _ & _ & Hr & _).
      cbn in Hr. injection Heq as ->. lia.
    + subst a1. apply (list_elem_of_fmap_2 snd) in Hin. cbn [snd] in Hin.
      revert Hin. change (¬ (JsNumber 100000 ∈ snd <$> Object_prototype)).
      apply (bool_decide_unpack _). vm_compute. exact I.
Qed.

Lemma X7_distinct_urls_witness :
  record_get "广东省" PROVINCE_ADCODES = Some (JsNumber 440000)
  ∧ record_get "constructor" PROVINCE_ADCODES = Some (JsFunction "Object")
  ∧ mapUrl 440000 ≠ mapUrl 100000.
Proof.
  assert (record_get "广东省" PROVINCE_ADCODES = Some (JsNumber 440000)) as H1
    by (vm_compute; reflexivity).
  assert (record_get "constructor" PROVINCE_ADCODES = Some (JsFunction "Object")) as H2
    by (vm_compute; reflexivity).
  split; [exact H1|]. split; [exact H2|].
  exact (proj2 (X7_distinct_maps_distinct_urls
                  "广东省" "constructor" (JsNumber 440000) (JsFunction "Object") H1 H2)).
Defined.

(** ** More on the metric generator *)

Lemma generateData_app rand l1 l2 s :
  generateData rand (l1 ++ l2) s
  = (fst (generateData rand l1 s)
       ++ fst (generateData rand l2 (s + 2 * length l1)%nat),
     (s + 2 * length (l1 ++ l2))%nat).
Proof.
  revert s. induction l1 as [|n l1 IH]; intros s.
  - cbn [app length fst generateData mret rand_ret].
    rewrite Nat.mul_0_r, Nat.add_0_r.
    rewrite (surjective_pairing (generateData rand l2 s)) at 1.
    by rewrite generateData_draws.
  - rewrite <- app_comm_cons, !generateData_cons, IH. cbn [fst snd length].
    rewrite <- app_comm_cons.
    replace (s + 2 * S (length l1))%nat with (S (S s) + 2 * length l1)%nat by lia.
    f_equal. lia.
Qed.

(** X8.  The generator consumes exactly two random draws per region, in
    order, and nothing for an empty list; generating for a concatenation is
    generating for the first list and then, from where the random source was
    left, for the second. *)
Theorem X8_generateData_threads_random_source
    (rand : nat -> Q) (l1 l2 : list string) (s : nat) :
  generateData rand [] s = ([], s)
  ∧ snd (generateData rand l1 s) = (s + 2 * length l1)%nat
  ∧ fst (generateData rand (l1 ++ l2) s)
    = fst (generateData rand l1 s)
        ++ fst (generateData rand l2 (snd (generateData rand l1 s)))
  ∧ snd (generateData rand (l1 ++ l2) s)
    = snd (generateData rand l2 (snd (generateData rand l1 s))).
Proof.
  split; [done|]. split; [apply generateData_draws|].
  rewrite generateData_app, !generateData_draws, length_app. cbn [fst snd].
  split; [done|lia].
Qed.

(** X9.  With draws that are doubles from [0,1) the value of a sample never
    reaches 10000, the upper end of the documented range: the largest draw
    is 1 - 2^-53 and its product with 9000 rounds to a double below 9000,
    so the value is an integer from 1000 to 9999; and the growth is the
    double that [parseFloat] reads from a decimal of [n] hundredths, with
    [n] between -20 and 20. *)
Theorem X9_sample_granularity
    (rand : nat -> Q) (regionNames : list string) (s : nat) :
  (forall k, Double.isDouble (rand k) ∧ (0 <= rand k)%Q ∧ (rand k < 1)%Q) ->
  Forall (fun d => 1000 <= value d <= 9999
                   ∧ ∃ n : Z, growth d = parseFloat_hundredths n ∧ -20 <= n <= 20)
         (fst (generateData rand regionNames s)).
Proof.
  intros Hrand. apply Forall_lookup. intros i d Hd.
  assert (i < length regionNames)%nat as Hi.
  { rewrite <- (generateData_names rand regionNames s), length_map.
    by eapply lookup_lt_Some. }
  destruct (lookup_lt_is_Some_2 _ _ Hi) as [n Hn].
  rewrite (generateData_lookup rand _ s _ _ Hn) in Hd.
  apply (inj Some) in Hd. subst d. cbn [value growth].
  destruct (Hrand (s + 2 * i)%nat) as (Hdbl & Ha & Hb).
  destruct (Hrand (S (s + 2 * i))) as (_ & Hc & Hd).
  split; [by apply value_range_strict|].
  destruct (growth_range _ Hc Hd) as (m & Hm & Hg & _).
  by exists m.
Qed.

Lemma X9_sample_granularity_witness :
  (forall k : nat,
     Double.isDouble (9007199254740991 # 9007199254740992)
     ∧ (0 <= 9007199254740991 # 9007199254740992)%Q
     ∧ (9007199254740991 # 9007199254740992 < 1)%Q)
  ∧ Forall (fun d => 1000 <= value d <= 9999
                     ∧ ∃ n : Z, growth d = parseFloat_hundredths n ∧ -20 <= n <= 20)
           (fst (generateData (fun _ => 9007199254740991 # 9007199254740992)
                   ["北京市"; "广东省"] 0%nat)).
Proof.
  assert (forall k : nat,
            Double.isDouble (9007199254740991 # 9007199254740992)
            ∧ (0 <= 9007199254740991 # 9007199254740992)%Q
            ∧ (9007199254740991 # 9007199254740992 < 1)%Q) as H
    by (intros k; split_and!; [vm_compute; reflexivity | discriminate | reflexivity]).
  split; [exact H|].
  exact (X9_sample_granularity (fun _ => 9007199254740991 # 9007199254740992)
           ["北京市"; "广东省"] 0%nat H).
Defined.

(** The bounds are reached: the largest draw gives the value 9999 and the
    growth 0.2, the draw 0 the value 1000 and the growth -0.2. *)
Example generateSample_extremes :
  sampleValue (9007199254740991 # 9007199254740992) = 9999
  ∧ sampleGrowth (9007199254740991 # 9007199254740992) = literal (2 # 10)
  ∧ sampleValue 0 = 1000
  ∧ sampleGrowth 0 = (- literal (2 # 10))%Q.
Proof. split_and!; vm_compute; reflexivity. Qed.

(** ** The loader over whole sessions *)

Lemma loadMap_finish_cache adcode mapName geoJson w :
  mapCache (loadMap_finish adcode mapName geoJson w) = mapCache w.
Proof. done. Qed.

(** What one transition can do to the cache and to the registered maps. *)
Lemma handle_cache e w :
  (mapCache (fst (handle e w)) = mapCache w
   ∧ (registeredMaps (fst (handle e w)) = registeredMaps w
      ∨ ∃ m g, mapCache w !! m = Some g
               ∧ registeredMaps (fst (handle e w)) = <[m := g]> (registeredMaps w)))
  ∨ ∃ i a m g,
      e = JsonSettled i (JsonParsed g)
      ∧ pending w !! i = Some (AwaitJson a m)
      ∧ mapCache (fst (handle e w)) = <[m := g]> (mapCache w)
      ∧ registeredMaps (fst (handle e w)) = <[m := g]> (registeredMaps w).
Proof.
  assert (forall a m w1,
            mapCache w1 = mapCache w -> registeredMaps w1 = registeredMaps w ->
            mapCache (fst (loadMap a m w1)) = mapCache w
            ∧ (registeredMaps (fst (loadMap a m w1)) = registeredMaps w
               ∨ ∃ m' g, mapCache w !! m' = Some g
                   ∧ registeredMaps (fst (loadMap a m w1)) = <[m' := g]> (registeredMaps w)))
    as Hload.
  { intros a m w1 Hc Hr. destruct (mapCache w1 !! m) as [g|] eqn:H.
    - rewrite (loadMap_hit _ _ _ _ H). cbn. split; [done|].
      right. exists m, g. split; [by rewrite <- Hc | by rewrite <- Hr].
    - rewrite (loadMap_miss _ _ _ H). cbn. split; [done|by left]. }
  destruct e as [ct n| |d|i r|i r]; cbn [handle].
  - left. unfold onChartClick. destruct (_ && _); [|by split; [|left]].
    destruct (record_get _ _) as [c|]; [|by split; [|left]].
    destruct (ToBoolean c); [|by split; [|left]]. by apply Hload.
  - left. by apply Hload.
  - left. by split; [|left].
  - left. unfold resumeFetch.
    destruct (pending w !! i) as [[a m|a m]|]; try by split; [|left].
    destruct r as [reason|[|]]; by split; [|left].
  - unfold resumeJson.
    destruct (pending w !! i) as [[a m|a m]|] eqn:Hp; try by left; split; [|left].
    destruct r as [reason|g]; [by left; split; [|left]|].
    right. by exists i, a, m, g.
Qed.

(** X10.  The cache never loses an entry: a map cached at some point of a
    session is cached at every later point, whatever happens in between. *)
Theorem X10_cache_never_evicts
    (rand : nat -> Q) (es : list Event) (w : World) (mapName : string) :
  is_Some (mapCache w !! mapName) ->
  is_Some (mapCache (run rand es w) !! mapName).
Proof.
  revert w. induction es as [|e es IH]; intros w H; [done|].
  cbn [run]. apply IH.
  destruct (step_loader rand e w) as (-> & _).
  destruct (handle_cache e w) as [[-> _]|(i & a & m & g & _ & _ & -> & _)]; [done|].
  rewrite lookup_insert. by case_decide.
Qed.

Lemma X10_cache_never_evicts_witness :
  is_Some (mapCache sampleReady !! "china")
  ∧ is_Some (mapCache (run sampleRand [Click "series" "广东省"; BackToNational] sampleReady)
               !! "china").
Proof.
  assert (is_Some (mapCache sampleReady !! "china")) as H.
  { exists sampleChina. vm_compute. reflexivity. }
  split; [exact H|].
  exact (X10_cache_never_evicts sampleRand _ sampleReady "china" H).
Defined.

Lemma reachable_registry_eq_cache
    (rand : nat -> Q) (tz : JsDate.TimeZone) (clock : nat -> Z) (w : World) :
  reachable rand tz clock w -> registeredMaps w = mapCache w.
Proof.
  induction 1 as [|e w Hw IH].
  - unfold mounted, mount. cbv zeta.
    destruct (commit_loader rand
      match chartInstance (fst (loadMap 100000 "china" (initialWorld tz clock))) with
      | Some _ => fst (loadMap 100000 "china" (initialWorld tz clock))
      | None => withChartInstance (Some {| chartOption := None |})
                  (fst (loadMap 100000 "china" (initialWorld tz clock)))
      end) as (-> & -> & _).
    assert (mapCache (initialWorld tz clock) !! "china" = None) as Hmiss
      by apply lookup_empty.
    rewrite (loadMap_miss _ _ _ Hmiss).
    generalize (initialView tz clock). intros v. done.
  - destruct (step_loader rand e w) as (-> & -> & _).
    destruct (handle_cache e w)
      as [[-> [->|(m & g & Hm & ->)]]|(i & a & m & g & _ & _ & -> & ->)].
    + done.
    + rewrite IH. by apply insert_id.
    + by rewrite IH.
Qed.

(** X11.  The cache and the maps registered with the chart library hold the
    same geometries at every point of a session: whatever is cached has been
    registered under the same name, and nothing else is registered. *)
Theorem X11_registry_mirrors_cache
    (rand : nat -> Q) (tz : JsDate.TimeZone) (clock : nat -> Z) (w : World) :
  reachable rand tz clock w -> registeredMaps w = mapCache w.
Proof. apply reachable_registry_eq_cache. Qed.

Lemma X11_registry_mirrors_cache_witness :
  reachable sampleRand chinaStandardTime sampleClock
    (run sampleRand [JsonSettled 0 (JsonParsed sampleGuangdong)] sampleRacing)
  ∧ registeredMaps
      (run sampleRand [JsonSettled 0 (JsonParsed sampleGuangdong)] sampleRacing)
    = mapCache
        (run sampleRand [JsonSettled 0 (JsonParsed sampleGuangdong)] sampleRacing).
Proof.
  assert (reachable sampleRand chinaStandardTime sampleClock
            (run sampleRand [JsonSettled 0 (JsonParsed sampleGuangdong)] sampleRacing))
    as H by (do 7 apply reachable_step; apply reachable_mounted).
  split; [exact H|].
  exact (X11_registry_mirrors_cache _ _ _ _ H).
Defined.

(** In that world two maps are cached and registered. *)
Example two_maps_cached :
  map fst (map_to_list
             (mapCache
                (run sampleRand [JsonSettled 0 (JsonParsed sampleGuangdong)] sampleRacing)))
  ≡ₚ ["china"; "广东省"].
Proof.
  apply (bool_decide_unpack _). vm_compute. exact I.
Qed.

(** ** One event, one kind of change *)

Lemma withConsole_nil w : withConsole (console w ++ []) w = w.
Proof. destruct w. unfold withConsole. cbn. by rewrite app_nil_r. Qed.

Lemma loadMap_transition adcode mapName w logs :
  knownMap adcode mapName ->
  transition w (fst (loadMap adcode mapName (withConsole (console w ++ logs) w))).
Proof.
  intros Hk.
  destruct (mapCache (withConsole (console w ++ logs) w) !! mapName) as [g|] eqn:H.
  - rewrite (loadMap_hit _ _ _ _ H). by apply tr_hit.
  - rewrite (loadMap_miss _ _ _ H). by apply (tr_miss w adcode mapName logs).
Qed.

Lemma handle_transition e w : transition w (fst (handle e w)).
Proof.
  destruct e as [ct n| |d|i r|i r]; cbn [handle].
  - unfold onChartClick. destruct (_ && _); [|apply tr_idle].
    destruct (record_get _ _) as [c|] eqn:Hc; [|apply tr_log].
    destruct (ToBoolean c); [|apply tr_log].
    apply (loadMap_transition c n w [ConsoleLog _]). by right.
  - unfold handleBackToNational.
    rewrite <- (withConsole_nil w) at 2.
    apply loadMap_transition. by left.
  - apply tr_select.
  - unfold resumeFetch. destruct (pending w !! i) as [[a m|a m]|] eqn:Hp; try apply tr_idle.
    destruct r as [reason|[|]]; cbn [negb fst].
    + by apply (tr_fail w i (AwaitFetch a m) reason).
    + by apply tr_parse.
    + by apply (tr_fail w i (AwaitFetch a m) (httpErrorMessage m)).
  - unfold resumeJson. destruct (pending w !! i) as [[a m|a m]|] eqn:Hp; try apply tr_idle.
    destruct r as [reason|g]; cbn [fst].
    + by apply (tr_fail w i (AwaitJson a m) reason).
    + exact (tr_success w i a m g Hp).
Qed.

(** ** Start-up *)

Lemma mount_fresh rand v :
  isLoading v = true -> error v = None ->
  mount rand
    {| view := v; mapCache := ∅; registeredMaps := ∅; chartInstance := None;
       requests := []; pending := []; console := []; effectDeps := None;
       randomCalls := 0; renders := 0; nextArrayId := 1 |}
  = {| view := v; mapCache := ∅; registeredMaps := ∅;
       chartInstance := Some {| chartOption := None |};
       requests := [mapUrl 100000]; pending := [AwaitFetch 100000 "china"];
       console := []; effectDeps := Some (currentDeps v);
       randomCalls := 0; renders := 0; nextArrayId := 1 |}.
Proof.
  intros Hl He. destruct v as [l e ds sd mn ac rn]. cbn in Hl, He. subst l e.
  unfold mount. cbv zeta.
  rewrite loadMap_miss by apply lookup_empty.
  cbn [fst withPending withRequests withView withChartInstance chartInstance
       view mapCache registeredMaps requests pending console effectDeps randomCalls
       renders nextArrayId setError setIsLoading isLoading error dates selectedDate
       currentMapName currentAdcode currentRegionNames app].
  unfold commit.
  cbn [effectDeps view withEffectDeps].
  rewrite decide_False by done.
  unfold renderEffect. done.
Qed.

(** X12.  Start-up issues exactly one request, for the national map at
    [.../100000_full.json]; the chart is created but nothing is drawn, the
    loading flag is up, and cache and registered maps are empty. *)
Theorem X12_startup_requests_national_map
    (rand : nat -> Q) (tz : JsDate.TimeZone) (clock : nat -> Z) :
  mounted rand tz clock
  = {| view := initialView tz clock; mapCache := ∅; registeredMaps := ∅;
       chartInstance := Some {| chartOption := None |};
       requests := ["https://geo.datav.aliyun.com/areas_v3/bound/100000_full.json"];
       pending := [AwaitFetch 100000 "china"];
       console := []; effectDeps := Some (currentDeps (initialView tz clock));
       randomCalls := 0; renders := 0; nextArrayId := 1 |}.
Proof. unfold mounted, initialWorld. by apply mount_fresh. Qed.

Lemma mounted_world rand tz clock :
  mounted rand tz clock
  = {| view := initialView tz clock; mapCache := ∅; registeredMaps := ∅;
       chartInstance := Some {| chartOption := None |};
       requests := [mapUrl 100000]; pending := [AwaitFetch 100000 "china"];
       console := []; effectDeps := Some (currentDeps (initialView tz clock));
       randomCalls := 0; renders := 0; nextArrayId := 1 |}.
Proof. unfold mounted, initialWorld. by apply mount_fresh. Qed.

(** ** Invariants of a session *)

Lemma commit_nextArrayId rand w : nextArrayId (commit rand w) = nextArrayId w.
Proof.
  unfold commit. case_decide; [done|]. unfold renderEffect. cbn.
  destruct (chartInstance w); [|done]. destruct (isLoading (view w)); [done|].
  by destruct (generateData _ _ _).
Qed.

(** Induction over sessions: a property of the mounted component that every
    kind of transition followed by a commit preserves holds throughout. *)
Lemma reachable_invariant rand tz clock (P : World -> Prop) :
  P (mounted rand tz clock) ->
  (forall w w', reachable rand tz clock w -> P w -> transition w w' ->
                P (commit rand w')) ->
  forall w, reachable rand tz clock w -> P w.
Proof.
  intros Hinit Hstep w Hw. induction Hw as [|e w Hw IH]; [done|].
  unfold step. eapply Hstep; [done..|]. apply handle_transition.
Qed.

Lemma knownMap_national : knownMap 100000 "china".
Proof. by left. Qed.

Lemma transition_known w w' : transition w w' -> knownWorld w -> knownWorld w'.
Proof.
  intros Ht (Hv & Hp & Hr). unfold knownWorld.
  destruct Ht as [|msg|d|a m g logs Hk Hc|a m logs Hk Hc|i p err Hi|i a m Hi|i a m g Hi];
    cbn; try done.
  - split_and!; [done| |].
    + apply Forall_app. split; [done|]. by apply Forall_singleton.
    + apply Forall_app. split; [done|]. apply Forall_singleton. by exists a, m.
  - split_and!; [done| |done]. by apply Forall_delete.
  - split_and!; [done| |done]. apply Forall_insert; [done|].
    by apply (Forall_lookup_1 _ _ _ _ Hp Hi).
  - split_and!; [|by apply Forall_delete|done].
    by apply (Forall_lookup_1 _ _ _ _ Hp Hi).
Qed.

Lemma reachable_known rand tz clock w :
  reachable rand tz clock w -> knownWorld w.
Proof.
  apply reachable_invariant.
  - rewrite mounted_world. unfold knownWorld. cbn. split_and!.
    + apply knownMap_national.
    + apply Forall_singleton, knownMap_national.
    + apply Forall_singleton. exists 100000, "china". split; [apply knownMap_national|done].
  - intros w0 w' _ IH Ht. apply (transition_known _ _ Ht) in IH.
    unfold knownWorld in *. rewrite commit_view.
    by destruct (commit_loader rand w') as (_ & _ & -> & -> & _).
Qed.

(** X13.  Throughout a session the component only ever deals with the
    national map under code 100000 or with a name that [PROVINCE_ADCODES]
    has a property for, under the value of that property: a province under
    the registry's code, or a name inherited from [Object.prototype] under
    the inherited function or object.  This holds of the map shown, of
    every load in flight and of every URL requested. *)
Theorem X13_only_property_names_are_loaded
    (rand : nat -> Q) (tz : JsDate.TimeZone) (clock : nat -> Z) (w : World) :
  reachable rand tz clock w ->
  ((currentMapName (view w) = "china" ∧ currentAdcode (view w) = JsNumber 100000)
   ∨ (∃ n : Z, currentAdcode (view w) = JsNumber n
               ∧ (currentMapName (view w), n) ∈ PROVINCE_ADCODES)
   ∨ ((currentMapName (view w) ∉ INITIAL_PROVINCES)
      ∧ (currentMapName (view w), currentAdcode (view w)) ∈ Object_prototype))
  ∧ (forall p, p ∈ pending w -> knownMap (pendingTarget p).1 (pendingTarget p).2)
  ∧ (forall url, url ∈ requests w ->
       ∃ adcode, url = mapUrl adcode
                 ∧ (adcode = JsNumber 100000
                    ∨ ∃ n, record_get n PROVINCE_ADCODES = Some adcode)).
Proof.
  intros (Hv & Hp & Hr)%reachable_known. split; [|split].
  - destruct Hv as [Hv|Hv]; [by left|]. right. by apply record_get_cases.
  - by apply Forall_forall.
  - intros url Hu. rewrite Forall_forall in Hr.
    destruct (Hr url Hu) as (a & m & [[_ ->]|Hk] & ->).
    + exists 100000. split; [done|by left].
    + exists a. split; [done|]. right. by exists m.
Qed.

Lemma X13_only_property_names_witness :
  reachable sampleRand chinaStandardTime sampleClock sampleInherited
  ∧ (forall p, p ∈ pending sampleInherited ->
       knownMap (pendingTarget p).1 (pendingTarget p).2).
Proof.
  assert (reachable sampleRand chinaStandardTime sampleClock sampleInherited) as H
    by (do 3 apply reachable_step; apply reachable_mounted).
  split; [exact H|].
  exact (proj1 (proj2 (X13_only_property_names_are_loaded _ _ _ _ H))).
Defined.

(** In that world the load in flight is for the inherited constructor. *)
Example inherited_load_in_flight :
  pending sampleInherited = [AwaitFetch (JsFunction "Object") "constructor"]
  ∧ knownMap (JsFunction "Object") "constructor".
Proof. split; [vm_compute; reflexivity|]. right. vm_compute. reflexivity. Qed.

Lemma transition_idle_flag w w' :
  transition w w' ->
  (pending w = [] -> isLoading (view w) = false) ->
  pending w' = [] -> isLoading (view w') = false.
Proof.
  intros Ht IH.
  destruct Ht as [|msg|d|a m g logs Hk Hc|a m logs Hk Hc|i p err Hi|i a m Hi|i a m g Hi];
    cbn; try done.
  - intros H. by apply app_nil in H as [_ ?].
  - intros H. apply (f_equal length) in H. rewrite length_insert in H.
    apply lookup_lt_Some in Hi. cbn in H. lia.
Qed.

(** X14.  The loading overlay cannot get stuck: at every point of a session
    at which no load is in flight, the loading flag is down. *)
Theorem X14_no_load_in_flight_means_not_loading
    (rand : nat -> Q) (tz : JsDate.TimeZone) (clock : nat -> Z) (w : World) :
  reachable rand tz clock w -> pending w = [] -> isLoading (view w) = false.
Proof.
  revert w.
  apply (reachable_invariant rand tz clock
           (fun w => pending w = [] -> isLoading (view w) = false)).
  - by rewrite mounted_world.
  - intros w0 w' _ IH Ht. rewrite commit_view.
    destruct (commit_loader rand w') as (_ & _ & _ & -> & _).
    by apply (transition_idle_flag w0).
Qed.

Lemma X14_not_loading_witness :
  reachable sampleRand chinaStandardTime sampleClock sampleReady
  ∧ pending sampleReady = []
  ∧ isLoading (view sampleReady) = false.
Proof.
  assert (reachable sampleRand chinaStandardTime sampleClock sampleReady) as H
    by (do 2 apply reachable_step; apply reachable_mounted).
  assert (pending sampleReady = []) as Hp by (vm_compute; reflexivity).
  split; [exact H|]. split; [exact Hp|].
  exact (X14_no_load_in_flight_means_not_loading _ _ _ _ H Hp).
Defined.

Lemma transition_names w w' :
  transition w w' -> namesFromGeometry w -> namesFromGeometry w'.
Proof.
  intros Ht IH. unfold namesFromGeometry in *.
  destruct Ht as [|msg|d|a m g logs Hk Hc|a m logs Hk Hc|i p err Hi|i a m Hi|i a m g Hi];
    cbn; try done.
  - right. exists g. split; [apply lookup_insert_eq|done].
  - right. exists g. split; [apply lookup_insert_eq|done].
Qed.

Lemma reachable_names rand tz clock w :
  reachable rand tz clock w -> namesFromGeometry w.
Proof.
  apply reachable_invariant.
  - rewrite mounted_world. by left.
  - intros w0 w' _ IH Ht. apply (transition_names _ _ Ht) in IH.
    unfold namesFromGeometry in *. rewrite commit_view.
    by destruct (commit_loader rand w') as (_ & -> & _).
Qed.

(** X15.  At every point of a session the visible region names are either
    still the initial provinces of the registry, under the national map, or
    exactly the non-empty feature names, in feature order, of the geometry
    that is cached and registered under the map now shown. *)
Theorem X15_names_follow_current_geometry
    (rand : nat -> Q) (tz : JsDate.TimeZone) (clock : nat -> Z) (w : World) :
  reachable rand tz clock w ->
  (currentRegionNames (view w) = {| array_id := 0; elements := INITIAL_PROVINCES |}
   ∧ currentMapName (view w) = "china")
  ∨ ∃ geoJson,
      mapCache w !! currentMapName (view w) = Some geoJson
      ∧ registeredMaps w !! currentMapName (view w) = Some geoJson
      ∧ elements (currentRegionNames (view w)) = withoutEmpty (featureNames geoJson).
Proof.
  intros Hw. destruct (reachable_names _ _ _ _ Hw) as [H|(g & Hg & Hn)]; [by left|].
  right. exists g. rewrite <- (reachable_registry_eq_cache _ _ _ _ Hw).
  by rewrite <- subRegionsOf_withoutEmpty.
Qed.

Lemma X15_names_follow_geometry_witness :
  reachable sampleRand chinaStandardTime sampleClock sampleReady
  ∧ ((currentRegionNames (view sampleReady)
      = {| array_id := 0; elements := INITIAL_PROVINCES |}
      ∧ currentMapName (view sampleReady) = "china")
     ∨ ∃ geoJson,
         mapCache sampleReady !! currentMapName (view sampleReady) = Some geoJson
         ∧ registeredMaps sampleReady !! currentMapName (view sampleReady) = Some geoJson
         ∧ elements (currentRegionNames (view sampleReady))
           = withoutEmpty (featureNames geoJson)).
Proof.
  assert (reachable sampleRand chinaStandardTime sampleClock sampleReady) as H
    by (do 2 apply reachable_step; apply reachable_mounted).
  split; [exact H|].
  exact (X15_names_follow_current_geometry _ _ _ _ H).
Defined.

(** ** The render effect *)

Lemma transition_render_frame w w' :
  transition w w' ->
  chartInstance w' = chartInstance w
  ∧ effectDeps w' = effectDeps w
  ∧ randomCalls w' = randomCalls w
  ∧ renders w' = renders w
  ∧ ((currentRegionNames (view w') = currentRegionNames (view w)
      ∧ nextArrayId w' = nextArrayId w)
     ∨ (array_id (currentRegionNames (view w')) = nextArrayId w
        ∧ nextArrayId w' = S (nextArrayId w))).
Proof.
  intros Ht.
  destruct Ht as [|msg|d|a m g logs Hk Hc|a m logs Hk Hc|i p err Hi|i a m Hi|i a m g Hi];
    cbn; split_and!; try done; (left; split; reflexivity) || (right; split; reflexivity).
Qed.

Lemma renderEffect_rendered rand w :
  is_Some (chartInstance w) ->
  is_Some (chartInstance (renderEffect rand w))
  ∧ nextArrayId (renderEffect rand w) = nextArrayId w
  ∧ (isLoading (view w) = false ->
     chartShows (view w) (chartInstance (renderEffect rand w))
     ∧ renders (renderEffect rand w) = S (renders w)
     ∧ randomCalls (renderEffect rand w)
       = (randomCalls w + 2 * length (elements (currentRegionNames (view w))))%nat)
  ∧ (isLoading (view w) = true -> renderEffect rand w = w).
Proof.
  intros [c Hc]. unfold renderEffect. rewrite Hc.
  destruct (isLoading (view w)) eqn:Hl.
  - rewrite Hc. by split_and!.
  - pose proof (generateData_names rand (elements (currentRegionNames (view w)))
                  (randomCalls w)) as Hn.
    pose proof (generateData_draws rand (elements (currentRegionNames (view w)))
                  (randomCalls w)) as Hd.
    destruct (generateData _ _ _) as [data calls]. cbn in *.
    split_and!; try done. intros _. split_and!; try done. by eexists.
Qed.

Lemma commit_rendered rand w w' :
  rendered w -> transition w w' -> rendered (commit rand w').
Proof.
  intros (Hdeps & Hid & Hchart & Hshow) Ht.
  destruct (transition_render_frame _ _ Ht) as (Hc & He & _ & _ & Hnames).
  unfold rendered. rewrite commit_view, commit_nextArrayId, commit_effectDeps, commit_view.
  split; [done|]. split; [destruct Hnames as [[-> ->]|[-> ->]]; [done|lia]|].
  unfold commit. case_decide as Hd.
  - rewrite Hc. split; [done|]. intros Hl.
    rewrite He, Hdeps in Hd. injection Hd as Hm Hi Hs Hl'.
    rewrite Hl in Hl'.
    destruct (Hshow Hl') as (data & Hdata & Hmap).
    exists data. rewrite Hdata, Hm, Hs. split; [done|].
    destruct Hnames as [[-> _]|[Hfresh _]]; [done|]. lia.
  - destruct (renderEffect_rendered rand (withEffectDeps (Some (currentDeps (view w'))) w'))
      as (Hs & _ & Hshow' & _).
    { cbn. by rewrite Hc. }
    split; [done|]. intros Hl. by apply Hshow'.
Qed.

Lemma reachable_rendered rand tz clock w :
  reachable rand tz clock w -> rendered w.
Proof.
  apply reachable_invariant.
  - rewrite mounted_world. unfold rendered. cbn. split_and!; [done|lia|done|done].
  - intros w0 w' _ IH Ht. by apply (commit_rendered rand w0).
Qed.

(** X16.  The dependency array of the render effect is sufficient: at every
    point of a session at which the loading flag is down, the chart's last
    option was built from the current map name and selected date and carries
    one sample for each of the current region names, in their order. *)
Theorem X16_chart_shows_current_state
    (rand : nat -> Q) (tz : JsDate.TimeZone) (clock : nat -> Z) (w : World) :
  reachable rand tz clock w ->
  isLoading (view w) = false ->
  ∃ data,
    chartInstance w
    = Some {| chartOption :=
                Some {| title_text := titleText (currentMapName (view w));
                        title_subtext := "Data Date: " +:+ selectedDate (view w);
                        geo_map := currentMapName (view w);
                        series_data := data |} |}
    ∧ map name data = elements (currentRegionNames (view w)).
Proof.
  intros Hw Hl. destruct (reachable_rendered _ _ _ _ Hw) as (_ & _ & _ & H).
  exact (H Hl).
Qed.

Lemma X16_chart_shows_state_witness :
  reachable sampleRand chinaStandardTime sampleClock sampleReady
  ∧ isLoading (view sampleReady) = false
  ∧ ∃ data,
      chartInstance sampleReady
      = Some {| chartOption :=
                  Some {| title_text := titleText (currentMapName (view sampleReady));
                          title_subtext := "Data Date: " +:+ selectedDate (view sampleReady);
                          geo_map := currentMapName (view sampleReady);
                          series_data := data |} |}
      ∧ map name data = elements (currentRegionNames (view sampleReady)).
Proof.
  assert (reachable sampleRand chinaStandardTime sampleClock sampleReady) as H
    by (do 2 apply reachable_step; apply reachable_mounted).
  assert (isLoading (view sampleReady) = false) as Hl by (vm_compute; reflexivity).
  split; [exact H|]. split; [exact Hl|].
  exact (X16_chart_shows_current_state _ _ _ _ H Hl).
Defined.

(** ** A failed load and the chart *)





Lemma loadMap_catch_fields mapName err p w :
  view (loadMap_catch mapName err (withPending p w))
  = setIsLoading false (setError (Some (loadErrorMessage mapName)) (view w))
  ∧ mapCache (loadMap_catch mapName err (withPending p w)) = mapCache w
  ∧ registeredMaps (loadMap_catch mapName err (withPending p w)) = registeredMaps w
  ∧ pending (loadMap_catch mapName err (withPending p w)) = p.
Proof. done. Qed.

Lemma initialView_fields tz clock :
  currentMapName (initialView tz clock) = "china"
  ∧ elements (currentRegionNames (initialView tz clock)) = INITIAL_PROVINCES
  ∧ isLoading (initialView tz clock) = true
  ∧ error (initialView tz clock) = None.
Proof. done. Qed.

Lemma setters_fields b e v :
  currentMapName (setIsLoading b (setError e v)) = currentMapName v
  ∧ selectedDate (setIsLoading b (setError e v)) = selectedDate v
  ∧ currentRegionNames (setIsLoading b (setError e v)) = currentRegionNames v
  ∧ isLoading (setIsLoading b (setError e v)) = b
  ∧ error (setIsLoading b (setError e v)) = e.
Proof. done. Qed.

Lemma titleText_china : titleText "china" = "全国实盘订单量监控".
Proof. vm_compute. reflexivity. Qed.

Lemma INITIAL_PROVINCES_length : length INITIAL_PROVINCES = 34%nat.
Proof. vm_compute. reflexivity. Qed.

(** X18.  Selecting another date while a map is shown regenerates and does
    not reload: no request is made and no load starts, the view changes only
    in the selected date, the chart is redrawn once for the new date with
    fresh samples for the same regions, and two draws per region are taken
    from the random source.  While a load is in flight the selection is
    recorded but nothing is redrawn. *)
Theorem X18_date_selection_regenerates
    (rand : nat -> Q) (tz : JsDate.TimeZone) (clock : nat -> Z)
    (w : World) (date : string) :
  reachable rand tz clock w ->
  date ≠ selectedDate (view w) ->
  let w' := step rand (SelectDate date) w in
  view w' = setSelectedDate date (view w)
  ∧ requests w' = requests w
  ∧ pending w' = pending w
  ∧ mapCache w' = mapCache w
  ∧ (isLoading (view w) = false ->
     renders w' = S (renders w)
     ∧ randomCalls w'
       = (randomCalls w + 2 * length (elements (currentRegionNames (view w))))%nat
     ∧ chartShows (view w') (chartInstance w'))
  ∧ (isLoading (view w) = true ->
     renders w' = renders w ∧ chartInstance w' = chartInstance w).
Proof.
  intros Hw Hd. cbv zeta.
  destruct (reachable_rendered _ _ _ _ Hw) as (Hdeps & _ & Hchart & _).
  destruct (step_loader rand (SelectDate date) w) as (-> & _ & -> & -> & _).
  rewrite step_view. cbn [handle fst].
  split_and!; try done.
  - intros Hl. unfold step. cbn [handle fst]. unfold commit.
    rewrite decide_False.
    2: { cbn. rewrite Hdeps. unfold currentDeps. cbn. congruence. }
    destruct (renderEffect_rendered rand
      (withEffectDeps (Some (currentDeps (view (withView (setSelectedDate date) w))))
         (withView (setSelectedDate date) w))) as (_ & _ & Hshow & _); [done|].
    destruct Hshow as (Hs & Hr & Hc); [done|]. by split_and!.
  - intros Hl. unfold step. cbn [handle fst]. unfold commit.
    rewrite decide_False.
    2: { cbn. rewrite Hdeps. unfold currentDeps. cbn. congruence. }
    destruct (renderEffect_rendered rand
      (withEffectDeps (Some (currentDeps (view (withView (setSelectedDate date) w))))
         (withView (setSelectedDate date) w))) as (_ & _ & _ & Hsame); [done|].
    by rewrite Hsame.
Qed.

Lemma X18_date_selection_witness :
  reachable sampleRand chinaStandardTime sampleClock sampleReady
  ∧ "2026-10-30" ≠ selectedDate (view sampleReady)
  ∧ requests (step sampleRand (SelectDate "2026-10-30") sampleReady)
    = requests sampleReady.
Proof.
  assert (reachable sampleRand chinaStandardTime sampleClock sampleReady) as H
    by (do 2 apply reachable_step; apply reachable_mounted).
  assert ("2026-10-30" ≠ selectedDate (view sampleReady)) as Hd
    by (vm_compute; discriminate).
  split; [exact H|]. split; [exact Hd|].
  exact (proj1 (proj2 (X18_date_selection_regenerates _ _ _ _ _ H Hd))).
Defined.

(** ** A load from invocation to settlement *)

Lemma step_fetch_ok rand i a m w :
  pending w !! i = Some (AwaitFetch a m) ->
  view (step rand (FetchSettled i (FetchResponse true)) w) = view w
  ∧ mapCache (step rand (FetchSettled i (FetchResponse true)) w) = mapCache w
  ∧ requests (step rand (FetchSettled i (FetchResponse true)) w) = requests w
  ∧ pending (step rand (FetchSettled i (FetchResponse true)) w)
    = <[i := AwaitJson a m]> (pending w).
Proof.
  intros Hp.
  destruct (step_loader rand (FetchSettled i (FetchResponse true)) w)
    as (-> & _ & -> & -> & _).
  rewrite step_view. cbn [handle]. unfold resumeFetch. by rewrite Hp.
Qed.

Lemma step_json_ok rand i a m g w :
  pending w !! i = Some (AwaitJson a m) ->
  view (step rand (JsonSettled i (JsonParsed g)) w)
  = setIsLoading false
      (setCurrentAdcode a
         (setCurrentMapName m
            (setCurrentRegionNames
               {| array_id := nextArrayId w; elements := subRegionsOf g |} (view w))))
  ∧ mapCache (step rand (JsonSettled i (JsonParsed g)) w) = <[m := g]> (mapCache w)
  ∧ requests (step rand (JsonSettled i (JsonParsed g)) w) = requests w
  ∧ pending (step rand (JsonSettled i (JsonParsed g)) w) = delete i (pending w).
Proof.
  intros Hp.
  destruct (step_loader rand (JsonSettled i (JsonParsed g)) w)
    as (-> & _ & -> & -> & _).
  rewrite step_view. cbn [handle]. unfold resumeJson. by rewrite Hp.
Qed.

(** ** A first load that fails *)

(** The event that ends a failing first load runs the [catch] block for the
    map [china], in a world that still has the initial view and empty
    cache and registry. *)
Lemma first_load_failure_catch rand tz clock es :
  firstLoadFailure es ->
  ∃ e w err,
    run rand es (mounted rand tz clock) = step rand e w
    ∧ reachable rand tz clock (step rand e w)
    ∧ view w = initialView tz clock
    ∧ mapCache w = ∅
    ∧ registeredMaps w = ∅
    ∧ fst (handle e w) = loadMap_catch "china" err (withPending [] w).
Proof.
  assert (view (mounted rand tz clock) = initialView tz clock
          ∧ mapCache (mounted rand tz clock) = ∅
          ∧ registeredMaps (mounted rand tz clock) = ∅
          ∧ pending (mounted rand tz clock) = [AwaitFetch 100000 "china"])
    as (Hv & Hc & Hg & Hp) by (by rewrite mounted_world).
  intros [r Hr|reason].
  - exists (FetchSettled 0 r), (mounted rand tz clock).
    assert (∃ err, fst (handle (FetchSettled 0 r) (mounted rand tz clock))
                   = loadMap_catch "china" err (withPending [] (mounted rand tz clock)))
      as [err Hh].
    { cbn [handle]. unfold resumeFetch. rewrite Hp.
      change ([AwaitFetch 100000 "china"] !! 0%nat)
        with (Some (AwaitFetch 100000 "china")).
      change (delete 0%nat [AwaitFetch 100000 "china"]) with (@nil Pending).
      generalize (mounted rand tz clock). intros w.
      destruct r as [reason|[|]]; [|discriminate Hr|]; eexists; reflexivity. }
    exists err.
    split_and!; [reflexivity | apply reachable_step, reachable_mounted
                | exact Hv | exact Hc | exact Hg | exact Hh].
  - pose (w1 := step rand (FetchSettled 0 (FetchResponse true)) (mounted rand tz clock)).
    assert (reachable rand tz clock w1) as Hreach
      by apply reachable_step, reachable_mounted.
    destruct (step_fetch_ok rand 0 100000 "china" (mounted rand tz clock))
      as (Hv1 & Hc1 & _ & Hp1).
    { by rewrite Hp. }
    fold w1 in Hv1, Hc1, Hp1. rewrite Hp in Hp1.
    change (<[0%nat := AwaitJson 100000 "china"]> [AwaitFetch 100000 "china"])
      with [AwaitJson 100000 "china"] in Hp1.
    pose proof (reachable_registry_eq_cache _ _ _ _ Hreach) as Hg1.
    exists (JsonSettled 0 (JsonRejected reason)), w1, reason.
    split_and!.
    + reflexivity.
    + by apply reachable_step.
    + rewrite Hv1. exact Hv.
    + rewrite Hc1. exact Hc.
    + rewrite Hg1, Hc1. exact Hc.
    + cbn [handle]. unfold resumeJson. rewrite Hp1.
      change ([AwaitJson 100000 "china"] !! 0%nat)
        with (Some (AwaitJson 100000 "china")).
      change (delete 0%nat [AwaitJson 100000 "china"]) with (@nil Pending).
      generalize w1. intros w. reflexivity.
Qed.

(** X17.  When the very first load fails, at the fetch or at the parse of
    the response, the chart is drawn all the same: the error is set and the
    loading flag is down, nothing is cached or registered, and the option
    names the map [china] and carries one sample for each of the 34
    provinces of the registry, the initial region names. *)
Theorem X17_first_load_failure_draws_initial_provinces
    (rand : nat -> Q) (tz : JsDate.TimeZone) (clock : nat -> Z) (es : list Event) :
  firstLoadFailure es ->
  let w := run rand es (mounted rand tz clock) in
  error (view w) = Some (loadErrorMessage "china")
  ∧ isLoading (view w) = false
  ∧ mapCache w = ∅
  ∧ registeredMaps w = ∅
  ∧ pending w = []
  ∧ ∃ data,
      chartInstance w
      = Some {| chartOption :=
                  Some {| title_text := "全国实盘订单量监控";
                          title_subtext := "Data Date: " +:+ selectedDate (initialView tz clock);
                          geo_map := "china";
                          series_data := data |} |}
      ∧ map name data = INITIAL_PROVINCES
      ∧ length data = 34%nat.
Proof.
  intros Hes. cbv zeta.
  destruct (first_load_failure_catch rand tz clock es Hes)
    as (e & w0 & err & -> & Hreach & Hv & Hc0 & Hg0 & Hh).
  destruct (reachable_rendered _ _ _ _ Hreach) as (_ & _ & _ & Hshow).
  destruct (step_loader rand e w0) as (Hc & Hg & _ & Hp & _).
  destruct (loadMap_catch_fields "china" err [] w0) as (Hcv & Hcc & Hcg & Hcp).
  destruct (setters_fields false (Some (loadErrorMessage "china")) (initialView tz clock))
    as (Hsm & Hsd & Hsr & Hsl & Hse).
  destruct (initialView_fields tz clock) as (Hm & He & _ & _).
  revert Hshow. unfold chartShows.
  rewrite Hc, Hg, Hp, step_view, Hh, Hcv, Hcc, Hcg, Hcp, Hv, Hc0, Hg0.
  rewrite Hsm, Hsd, Hsr, Hsl, Hse, Hm, He, titleText_china.
  intros Hshow. do 5 (split; [reflexivity|]).
  destruct (Hshow eq_refl) as (data & Hd & Hn).
  exists data. split; [exact Hd|]. split; [exact Hn|].
  rewrite <- (length_map name), Hn. apply INITIAL_PROVINCES_length.
Qed.

Lemma X17_first_load_failure_witness :
  firstLoadFailure [FetchSettled 0 (FetchResponse true);
                    JsonSettled 0 (JsonRejected "SyntaxError: Unexpected token")]
  ∧ error (view (run sampleRand
                   [FetchSettled 0 (FetchResponse true);
                    JsonSettled 0 (JsonRejected "SyntaxError: Unexpected token")]
                   (mounted sampleRand chinaStandardTime sampleClock)))
    = Some (loadErrorMessage "china").
Proof.
  assert (firstLoadFailure
            [FetchSettled 0 (FetchResponse true);
             JsonSettled 0 (JsonRejected "SyntaxError: Unexpected token")]) as H
    by apply fails_at_parse.
  split; [exact H|].
  exact (proj1 (X17_first_load_failure_draws_initial_provinces
                  sampleRand chinaStandardTime sampleClock _ H)).
Defined.


Lemma invoked_on_miss_loader rand adcode mapName w0 :
  mapCache w0 !! mapName = None ->
  mapCache (commit rand (fst (loadMap adcode mapName w0))) = mapCache w0
  ∧ requests (commit rand (fst (loadMap adcode mapName w0)))
    = requests w0 ++ [mapUrl adcode].
Proof.
  intros Hmiss.
  destruct (commit_loader rand (fst (loadMap adcode mapName w0)))
    as (-> & _ & -> & _).
  by rewrite (loadMap_miss _ _ _ Hmiss).
Qed.

(** X19.  A load that misses the cache, gets an ok response and a body that
    parses costs exactly one request, to the URL of its code, and ends with
    the map shown, its non-empty feature names visible, no error, the
    loading flag down and the geometry cached under the map name; from then
    on every load of that map name, under whatever code, is served from the
    cache without a request. *)
Theorem X19_network_load_then_cached
    (rand : nat -> Q) (w0 : World) (adcode : JsValue) (mapName : string) (geoJson : GeoJSON) :
  mapCache w0 !! mapName = None ->
  let n := length (pending w0) in
  let w3 :=
    run rand [FetchSettled n (FetchResponse true); JsonSettled n (JsonParsed geoJson)]
      (commit rand (fst (loadMap adcode mapName w0))) in
  requests w3 = requests w0 ++ [mapUrl adcode]
  ∧ pending w3 = pending w0
  ∧ mapCache w3 = <[mapName := geoJson]> (mapCache w0)
  ∧ currentMapName (view w3) = mapName
  ∧ currentAdcode (view w3) = adcode
  ∧ elements (currentRegionNames (view w3)) = subRegionsOf geoJson
  ∧ isLoading (view w3) = false
  ∧ error (view w3) = None
  ∧ (forall adcode',
       snd (loadMap adcode' mapName w3) = LoadSucceeded adcode' mapName geoJson
       ∧ requests (fst (loadMap adcode' mapName w3)) = requests w3).
Proof.
  intros Hmiss. cbv zeta. cbn [run].
  destruct (invoked_on_miss rand adcode mapName w0 Hmiss) as [Hp1 Hv1].
  destruct (invoked_on_miss_loader rand adcode mapName w0 Hmiss) as [Hc1 Hr1].
  set (w1 := commit rand (fst (loadMap adcode mapName w0))) in *. clearbody w1.
  destruct (step_fetch_ok rand (length (pending w0)) adcode mapName w1)
    as (Hv2 & Hc2 & Hr2 & Hp2).
  { rewrite Hp1. apply lookup_snoc. }
  rewrite Hp1, insert_snoc in Hp2.
  set (w2 := step rand (FetchSettled _ _) w1) in *. clearbody w2.
  destruct (step_json_ok rand (length (pending w0)) adcode mapName geoJson w2)
    as (Hv3 & Hc3 & Hr3 & Hp3).
  { rewrite Hp2. apply lookup_snoc. }
  rewrite Hp2, delete_snoc in Hp3.
  set (w3 := step rand (JsonSettled _ _) w2) in *. clearbody w3.
  rewrite Hr3, Hr2, Hr1, Hp3, Hc3, Hc2, Hc1, Hv3, Hv2, Hv1.
  do 8 (split; [reflexivity|]).
  intros adcode'.
  assert (mapCache w3 !! mapName = Some geoJson) as Hhit.
  { rewrite Hc3. apply lookup_insert_eq. }
  rewrite (loadMap_hit _ _ _ _ Hhit). split; [reflexivity|].
  cbn. by rewrite Hr3, Hr2, Hr1.
Qed.

Lemma X19_network_load_witness :
  mapCache sampleReady !! "广东省" = None
  ∧ requests
      (run sampleRand
         [FetchSettled (length (pending sampleReady)) (FetchResponse true);
          JsonSettled (length (pending sampleReady)) (JsonParsed sampleGuangdong)]
         (commit sampleRand (fst (loadMap 440000 "广东省" sampleReady))))
    = requests sampleReady ++ [mapUrl 440000].
Proof.
  assert (mapCache sampleReady !! "广东省" = None) as H by (vm_compute; reflexivity).
  split; [exact H|].
  exact (proj1 (X19_network_load_then_cached
                  sampleRand sampleReady 440000 "广东省" sampleGuangdong H)).
Defined.

(** X20.  Overlapping loads are not ordered by their invocation: with two
    loads waiting for their bodies, the map shown in the end is the one
    whose body arrives last, in either order of arrival; both geometries end
    up cached, no load remains in flight, and neither success touches the
    error, so a message left by another load stays. *)
Theorem X20_last_response_wins
    (rand : nat -> Q) (w : World) (a1 a2 : JsValue) (m1 m2 : string) (g1 g2 : GeoJSON) :
  pending w = [AwaitJson a1 m1; AwaitJson a2 m2] ->
  let first_then_second :=
    run rand [JsonSettled 0 (JsonParsed g1); JsonSettled 0 (JsonParsed g2)] w in
  let second_then_first :=
    run rand [JsonSettled 1 (JsonParsed g2); JsonSettled 0 (JsonParsed g1)] w in
  currentMapName (view first_then_second) = m2
  ∧ currentAdcode (view first_then_second) = a2
  ∧ elements (currentRegionNames (view first_then_second)) = subRegionsOf g2
  ∧ currentMapName (view second_then_first) = m1
  ∧ currentAdcode (view second_then_first) = a1
  ∧ elements (currentRegionNames (view second_then_first)) = subRegionsOf g1
  ∧ pending first_then_second = [] ∧ pending second_then_first = []
  ∧ error (view first_then_second) = error (view w)
  ∧ error (view second_then_first) = error (view w)
  ∧ mapCache first_then_second = <[m2 := g2]> (<[m1 := g1]> (mapCache w))
  ∧ mapCache second_then_first = <[m1 := g1]> (<[m2 := g2]> (mapCache w))
  ∧ (m1 ≠ m2 -> mapCache first_then_second = mapCache second_then_first).
Proof.
  intros Hp. cbv zeta. cbn [run].
  destruct (step_json_ok rand 0 a1 m1 g1 w) as (Hv1 & Hc1 & _ & Hp1);
    [by rewrite Hp|].
  rewrite Hp in Hp1. cbn [delete list_delete] in Hp1.
  set (wa := step rand (JsonSettled 0 (JsonParsed g1)) w) in *. clearbody wa.
  destruct (step_json_ok rand 0 a2 m2 g2 wa) as (Hv2 & Hc2 & _ & Hp2);
    [by rewrite Hp1|].
  rewrite Hp1 in Hp2. cbn [delete list_delete] in Hp2.
  set (wab := step rand (JsonSettled 0 (JsonParsed g2)) wa) in *. clearbody wab.
  destruct (step_json_ok rand 1 a2 m2 g2 w) as (Hv3 & Hc3 & _ & Hp3);
    [by rewrite Hp|].
  rewrite Hp in Hp3. cbn [delete list_delete] in Hp3.
  set (wb := step rand (JsonSettled 1 (JsonParsed g2)) w) in *. clearbody wb.
  destruct (step_json_ok rand 0 a1 m1 g1 wb) as (Hv4 & Hc4 & _ & Hp4);
    [by rewrite Hp3|].
  rewrite Hp3 in Hp4. cbn [delete list_delete] in Hp4.
  set (wba := step rand (JsonSettled 0 (JsonParsed g1)) wb) in *. clearbody wba.
  rewrite Hv2, Hv1, Hv4, Hv3, Hc2, Hc1, Hc4, Hc3, Hp2, Hp4.
  do 12 (split; [reflexivity|]).
  intros Hne. by apply insert_insert_ne.
Qed.

Lemma X20_last_response_witness :
  pending sampleRacing = [AwaitJson 440000 "广东省"; AwaitJson 110000 "北京市"]
  ∧ currentMapName
      (view (run sampleRand
               [JsonSettled 0 (JsonParsed sampleGuangdong);
                JsonSettled 0 (JsonParsed sampleBeijing)] sampleRacing))
    = "北京市".
Proof.
  assert (pending sampleRacing = [AwaitJson 440000 "广东省"; AwaitJson 110000 "北京市"])
    as H by (vm_compute; reflexivity).
  split; [exact H|].
  exact (proj1 (X20_last_response_wins sampleRand sampleRacing
                  440000 110000 "广东省" "北京市" sampleGuangdong sampleBeijing H)).
Defined.

(** ** The calendar behind the entries of the window *)

Lemma YearFromDay_spec d :
  JsDate.DayFromYear (JsDate.YearFromDay d) <= d
  < JsDate.DayFromYear (JsDate.YearFromDay d + 1).
Proof.
  unfold JsDate.YearFromDay, JsDate.DayFromYear.
  repeat match goal with
         | |- context [if ?b then _ else _] =>
             let H := fresh in destruct b eqn:H
         end;
    rewrite ?Z.leb_le, ?Z.leb_gt, ?Z.ltb_lt, ?Z.ltb_ge in *.
  all: Z.div_mod_to_equations; lia.
Qed.

Lemma DaysInYear_cases y : JsDate.DaysInYear y = 365 ∨ JsDate.DaysInYear y = 366.
Proof.
  unfold JsDate.DaysInYear, JsDate.DayFromYear. Z.div_mod_to_equations. lia.
Qed.

Lemma DayFromYear_mono y1 y2 :
  y1 <= y2 -> JsDate.DayFromYear y1 <= JsDate.DayFromYear y2.
Proof.
  unfold JsDate.DayFromYear. intros H. Z.div_mod_to_equations. lia.
Qed.

Lemma DayWithinYear_range t :
  0 <= JsDate.DayWithinYear t < 365 + JsDate.InLeapYear t
  ∧ (JsDate.InLeapYear t = 0 ∨ JsDate.InLeapYear t = 1).
Proof.
  unfold JsDate.DayWithinYear, JsDate.InLeapYear, JsDate.YearFromTime.
  pose proof (YearFromDay_spec (JsDate.Day t)) as Hy.
  pose proof (DaysInYear_cases (JsDate.YearFromDay (JsDate.Day t))) as Hd.
  unfold JsDate.DaysInYear in *.
  destruct (_ =? 366) eqn:Hl; rewrite ?Z.eqb_eq, ?Z.eqb_neq in Hl; lia.
Qed.

Lemma DateFromTime_range t : 1 <= JsDate.DateFromTime t <= 31.
Proof.
  pose proof (DayWithinYear_range t) as [Hr Hl].
  unfold JsDate.DateFromTime, JsDate.MonthFromTime.
  set (d := JsDate.DayWithinYear t) in *. set (l := JsDate.InLeapYear t) in *.
  clearbody d l.
  repeat match goal with
         | |- context [if ?b then _ else _] =>
             let H := fresh in destruct b eqn:H
         end;
    rewrite ?Z.ltb_lt, ?Z.ltb_ge in *; cbn [JsDate.monthStart]; lia.
Qed.

(** The day number is determined by the year, month and date. *)
Lemma Day_from_civil t :
  JsDate.Day t
  = JsDate.MakeDay (JsDate.YearFromTime t) (JsDate.MonthFromTime t) (JsDate.DateFromTime t).
Proof.
  unfold JsDate.MakeDay.
  pose proof (MonthFromTime_range t) as Hm.
  rewrite (Z.div_small (JsDate.MonthFromTime t) 12) by lia.
  rewrite (Z.mod_small (JsDate.MonthFromTime t) 12) by lia.
  rewrite Z.add_0_r.
  unfold JsDate.DateFromTime, JsDate.DayWithinYear, JsDate.InLeapYear. lia.
Qed.

Lemma field2_ok n : 0 <= n <= 99 -> fieldOk 2 n.
Proof.
  intros Hn.
  assert (Forall (fun n => String.length (JsDate.pad 2 n) = 2%nat
                           ∧ JsDate.splitT0 (JsDate.pad 2 n) = JsDate.pad 2 n
                           ∧ digitsValue (JsDate.pad 2 n) = n) (seqZ 0 100)) as Hall.
  { apply (bool_decide_unpack _). vm_compute. exact I. }
  rewrite Forall_forall in Hall. apply Hall, elem_of_seqZ. lia.
Qed.

Lemma field4_ok n : 0 <= n <= 9999 -> fieldOk 4 n.
Proof.
  intros Hn.
  assert (Forall (fun n => String.length (JsDate.pad 4 n) = 4%nat
                           ∧ JsDate.splitT0 (JsDate.pad 4 n) = JsDate.pad 4 n
                           ∧ digitsValue (JsDate.pad 4 n) = n) (seqZ 0 10000)) as Hall.
  { apply (bool_decide_unpack _). vm_compute. exact I. }
  rewrite Forall_forall in Hall. apply Hall, elem_of_seqZ. lia.
Qed.

Lemma string_app_nil_r s : s +:+ "" = s.
Proof.
  induction s as [|c s IH]; [done|].
  change (String c (s +:+ "") = String c s). by rewrite IH.
Qed.

Lemma splitT0_app a b :
  JsDate.splitT0 a = a -> JsDate.splitT0 (a +:+ b) = a +:+ JsDate.splitT0 b.
Proof.
  induction a as [|c a IH]; [done|].
  change (JsDate.splitT0 (String c a)) with
    (if Ascii.eqb c "T" then EmptyString else String c (JsDate.splitT0 a)).
  change (JsDate.splitT0 (String c a +:+ b)) with
    (if Ascii.eqb c "T" then EmptyString else String c (JsDate.splitT0 (a +:+ b))).
  destruct (Ascii.eqb c "T"); [done|]. intros [= H].
  change (String c a +:+ JsDate.splitT0 b) with (String c (a +:+ JsDate.splitT0 b)).
  f_equal. by apply IH.
Qed.


Lemma string_app_inj_length a1 a2 b1 b2 :
  String.length a1 = String.length a2 ->
  a1 +:+ b1 = a2 +:+ b2 -> a1 = a2 ∧ b1 = b2.
Proof.
  revert a2. induction a1 as [|c a1 IH]; intros [|c2 a2]; simpl; try done.
  intros [= Hl] [= -> H]. destruct (IH _ Hl H) as [-> ->]. done.
Qed.

Lemma year_in_range t :
  0 <= t < 253402300800000 -> 1970 <= JsDate.YearFromTime t <= 9999.
Proof.
  intros Ht. unfold JsDate.YearFromTime.
  assert (0 <= JsDate.Day t <= 2932896) as Hd.
  { unfold JsDate.Day, JsDate.msPerDay. Z.div_mod_to_equations. lia. }
  pose proof (YearFromDay_spec (JsDate.Day t)) as Hy.
  set (y := JsDate.YearFromDay (JsDate.Day t)) in *. clearbody y.
  split.
  - destruct (decide (1970 <= y)) as [|Hn]; [done|].
    pose proof (DayFromYear_mono (y + 1) 1970 ltac:(lia)) as Hm.
    change (JsDate.DayFromYear 1970) with 0 in Hm. lia.
  - destruct (decide (y <= 9999)) as [|Hn]; [done|].
    pose proof (DayFromYear_mono 10000 y ltac:(lia)) as Hm.
    change (JsDate.DayFromYear 10000) with 2932897 in Hm. lia.
Qed.

(** The date part of [toISOString] for a year written with four digits. *)
Lemma isoDate_form t :
  0 <= JsDate.YearFromTime t <= 9999 ->
  JsDate.splitT0 (JsDate.toISOString t)
  = JsDate.pad 4 (JsDate.YearFromTime t) +:+ "-"
      +:+ JsDate.pad 2 (JsDate.MonthFromTime t + 1) +:+ "-"
      +:+ JsDate.pad 2 (JsDate.DateFromTime t).
Proof.
  intros Hy. unfold JsDate.toISOString, JsDate.isoYear. cbv zeta.
  replace ((0 <=? JsDate.YearFromTime t) && (JsDate.YearFromTime t <=? 9999))
    with true by (symmetry; apply andb_true_intro; split; apply Z.leb_le; lia).
  pose proof (MonthFromTime_range t) as Hm.
  pose proof (DateFromTime_range t) as Hd.
  destruct (field4_ok (JsDate.YearFromTime t) Hy) as (_ & Hy4 & _).
  destruct (field2_ok (JsDate.MonthFromTime t + 1) ltac:(lia)) as (_ & Hm2 & _).
  destruct (field2_ok (JsDate.DateFromTime t) ltac:(lia)) as (_ & Hd2 & _).
  rewrite (splitT0_app _ _ Hy4).
  rewrite (splitT0_app "-" _ eq_refl).
  rewrite (splitT0_app _ _ Hm2).
  rewrite (splitT0_app "-" _ eq_refl).
  rewrite (splitT0_app _ _ Hd2).
  change (JsDate.splitT0 ("T" +:+ ?rest)) with "".
  by rewrite string_app_nil_r.
Qed.

Lemma isoDate_inj t1 t2 :
  0 <= JsDate.YearFromTime t1 <= 9999 ->
  0 <= JsDate.YearFromTime t2 <= 9999 ->
  JsDate.splitT0 (JsDate.toISOString t1) = JsDate.splitT0 (JsDate.toISOString t2) ->
  JsDate.Day t1 = JsDate.Day t2.
Proof.
  intros Hy1 Hy2. rewrite !isoDate_form by done. intros H.
  pose proof (MonthFromTime_range t1) as Hm1.
  pose proof (MonthFromTime_range t2) as Hm2.
  pose proof (DateFromTime_range t1) as Hd1.
  pose proof (DateFromTime_range t2) as Hd2.
  destruct (field4_ok _ Hy1) as (Ly1 & _ & Vy1).
  destruct (field4_ok _ Hy2) as (Ly2 & _ & Vy2).
  destruct (field2_ok (JsDate.MonthFromTime t1 + 1) ltac:(lia)) as (Lm1 & _ & Vm1).
  destruct (field2_ok (JsDate.MonthFromTime t2 + 1) ltac:(lia)) as (Lm2 & _ & Vm2).
  destruct (field2_ok (JsDate.DateFromTime t1) ltac:(lia)) as (_ & _ & Vd1).
  destruct (field2_ok (JsDate.DateFromTime t2) ltac:(lia)) as (_ & _ & Vd2).
  apply string_app_inj_length in H as [Hy H]; [|by rewrite Ly1, Ly2].
  apply (string_app_inj_length "-" "-") in H as [_ H]; [|done].
  apply string_app_inj_length in H as [Hm H]; [|by rewrite Lm1, Lm2].
  apply (string_app_inj_length "-" "-") in H as [_ Hd]; [|done].
  assert (JsDate.YearFromTime t1 = JsDate.YearFromTime t2) as Ey by congruence.
  assert (JsDate.MonthFromTime t1 + 1 = JsDate.MonthFromTime t2 + 1) as Em
    by congruence.
  assert (JsDate.DateFromTime t1 = JsDate.DateFromTime t2) as Ed by congruence.
  rewrite (Day_from_civil t1), (Day_from_civil t2), Ey, Ed.
  f_equal. lia.
Qed.



(** X22.  In a zone without daylight saving, within the same range of
    years, the seven entries of a window computed at one instant are
    pairwise different, so they can serve as keys of the timeline. *)
Theorem X22_window_entries_distinct (minutes now : Z) :
  518400000 <= now < 253402300800000 ->
  NoDup (getLast7Days (JsDate.fixedZone minutes) (fun _ => now)).
Proof.
  intros Hnow. destruct (getLast7Days_fixedZone minutes now) as [-> _].
  apply NoDup_fmap_2_strong.
  - intros i j Hi Hj Heq.
    assert (0 <= i <= 6 ∧ 0 <= j <= 6) as [Hi6 Hj6].
    { rewrite !elem_of_cons in Hi, Hj. rewrite elem_of_nil in Hi, Hj. lia. }
    apply isoDate_inj in Heq.
    + rewrite !Day_minus_days in Heq. lia.
    + pose proof (year_in_range (now - i * JsDate.msPerDay)
                    ltac:(unfold JsDate.msPerDay; lia)). lia.
    + pose proof (year_in_range (now - j * JsDate.msPerDay)
                    ltac:(unfold JsDate.msPerDay; lia)). lia.
  - apply (bool_decide_unpack _). vm_compute. exact I.
Qed.

Lemma X22_window_entries_distinct_witness :
  518400000 <= 1793559600000 < 253402300800000
  ∧ NoDup (getLast7Days chinaStandardTime (fun _ => 1793559600000)).
Proof.
  assert (518400000 <= 1793559600000 < 253402300800000) as H by lia.
  split; [exact H|].
  exact (X22_window_entries_distinct 480 1793559600000 H).
Defined.


(** ** Returning to the national view *)

(** X23.  The "return to national" action always asks for the map [china]
    under code 100000 and clears the error.  With the national map cached it
    completes at once, without a request: the national map is shown with the
    names of the cached geometry and the loading flag is down.  Otherwise it
    is a retry: one request goes to the national URL, the load is added to
    those in flight, the loading flag is up and the map shown stays as it
    is. *)
Theorem X23_back_to_national (rand : nat -> Q) (w : World) :
  let w' := step rand BackToNational w in
  error (view w') = None
  ∧ (forall geoJson,
       mapCache w !! "china" = Some geoJson ->
       currentMapName (view w') = "china"
       ∧ currentAdcode (view w') = 100000
       ∧ elements (currentRegionNames (view w')) = subRegionsOf geoJson
       ∧ isLoading (view w') = false
       ∧ requests w' = requests w
       ∧ pending w' = pending w)
  ∧ (mapCache w !! "china" = None ->
     isLoading (view w') = true
     ∧ requests w' = requests w ++ [mapUrl 100000]
     ∧ pending w' = pending w ++ [AwaitFetch 100000 "china"]
     ∧ currentMapName (view w') = currentMapName (view w)
     ∧ currentAdcode (view w') = currentAdcode (view w)
     ∧ currentRegionNames (view w') = currentRegionNames (view w)).
Proof.
  cbv zeta.
  destruct (step_loader rand BackToNational w) as (_ & _ & -> & -> & _).
  rewrite step_view. cbn [handle]. unfold handleBackToNational.
  generalize 100000 "china". intros a m.
  split; [apply loadMap_error|]. split.
  - intros g Hg. by rewrite (loadMap_hit _ _ _ _ Hg).
  - intros Hmiss. by rewrite (loadMap_miss _ _ _ Hmiss).
Qed.

Lemma X23_back_to_national_witness :
  mapCache sampleReady !! "china" = Some sampleChina
  ∧ currentMapName (view (step sampleRand BackToNational sampleReady)) = "china".
Proof.
  assert (mapCache sampleReady !! "china" = Some sampleChina) as H
    by (vm_compute; reflexivity).
  split; [exact H|].
  exact (proj1 (proj1 (proj2 (X23_back_to_national sampleRand sampleReady))
                  sampleChina H)).
Defined.
